(** * AnniesLasso: the polynomial vectorizer

    A shallow embedding of [AnniesLasso/vectorizer/polynomial.py]: the
    structured-term validator, the description parser, the label-vector
    builder and the evaluator, with Python's exceptions as an error monad,
    Python floats as IEEE binary64 numbers (the kernel's primitive floats)
    and the [OrderedDict] of a term as an association list in insertion
    order.  The embedding follows Python 3: [map] and [zip] are lazy, so one
    factor's label and power are read before the next factor is looked at. *)

From Stdlib Require Import Floats.PrimFloat Floats.SpecFloat Floats.FloatOps.
From Stdlib Require Import List String Ascii ZArith Lia Bool Arith.
From Stdlib Require Import DecimalString.
Import ListNotations.

Local Open Scope string_scope.
Local Open Scope list_scope.

(** ** Exceptions and results *)

(** The exceptions raised, each with its message or the name it is about;
    [Raised name] is [raise name] for a name that is bound. *)
Inductive exn : Type :=
| ValueError (msg : string)
| NameError (name : string)
| TypeError (msg : string)
| AttributeError (attr : string)
| IndexError (msg : string)
| OverflowError (msg : string)
| NotImplementedError (msg : string)
| Raised (name : string).

Inductive result (A : Type) : Type :=
| OK (a : A)
| Err (e : exn).

Arguments OK {A} a.
Arguments Err {A} e.

Definition bind {A B : Type} (r : result A) (k : A -> result B) : result B :=
  match r with
  | OK a => k a
  | Err e => Err e
  end.

Notation "x <- r ;; k" := (bind r (fun x => k))
  (at level 61, r at next level, right associativity).
Notation "' p <- r ;; k" := (bind r (fun p => k))
  (at level 61, p pattern, r at next level, right associativity).

(** [for x in xs: acc = body(acc, x)], stopping at the first exception. *)
Fixpoint for_each {A S : Type} (xs : list A) (acc : S)
         (body : S -> A -> result S) : result S :=
  match xs with
  | [] => OK acc
  | x :: xs' => acc' <- body acc x ;; for_each xs' acc' body
  end.

(** A list comprehension [[f(x) for x in xs]] whose [f] may raise. *)
Fixpoint map_result {A B : Type} (f : A -> result B) (xs : list A)
  : result (list B) :=
  match xs with
  | [] => OK []
  | x :: xs' => y <- f x ;; ys <- map_result f xs' ;; OK (y :: ys)
  end.

(** ** Python strings

    A string is a sequence of code points below 256. *)

Module PyStr.

(** [str.isspace] on one character: tab, line feed, vertical tab, form
    feed, carriage return, the four separators 28..31, the space, next
    line (133) and the no-break space (160). *)
Definition is_space (c : ascii) : bool :=
  let n := nat_of_ascii c in
  ((9 <=? n)%nat && (n <=? 13)%nat) || ((28 <=? n)%nat && (n <=? 32)%nat)
  || (n =? 133)%nat || (n =? 160)%nat.

Fixpoint lstrip (s : string) : string :=
  match s with
  | EmptyString => EmptyString
  | String c s' => if is_space c then lstrip s' else s
  end.

Fixpoint rstrip (s : string) : string :=
  match s with
  | EmptyString => EmptyString
  | String c s' =>
      match rstrip s' with
      | EmptyString => if is_space c then EmptyString else String c EmptyString
      | r => String c r
      end
  end.

(** [s.strip()] *)
Definition strip (s : string) : string := rstrip (lstrip s).

(** [s.startswith(p)] *)
Fixpoint startswith (p s : string) : bool :=
  match p, s with
  | EmptyString, _ => true
  | String a p', String b s' => Ascii.eqb a b && startswith p' s'
  | String _ _, EmptyString => false
  end.

(** [p in s] *)
Fixpoint contains (p s : string) : bool :=
  startswith p s ||
  match s with
  | EmptyString => false
  | String _ s' => contains p s'
  end.

Fixpoint rev_onto (acc s : string) : string :=
  match s with
  | EmptyString => acc
  | String c s' => rev_onto (String c acc) s'
  end.

(** The scan of [str.split(sep)] for a non-empty [sep]: [cur] is the
    current field, reversed; [skip] counts the characters of a separator
    just matched that are still to be passed over. *)
Fixpoint split_scan (sep s cur : string) (skip : nat) : list string :=
  match s with
  | EmptyString => [rev_onto EmptyString cur]
  | String c s' =>
      match skip with
      | S k => split_scan sep s' cur k
      | O =>
          if startswith sep s
          then rev_onto EmptyString cur
                 :: split_scan sep s' EmptyString (String.length sep - 1)
          else split_scan sep s' (String c cur) 0
      end
  end.

(** [s.split(sep)]: [ValueError] on the empty separator. *)
Definition split (s sep : string) : result (list string) :=
  match sep with
  | EmptyString => Err (ValueError "empty separator")
  | _ => OK (split_scan sep s EmptyString 0)
  end.

(** [sep.join(items)] *)
Fixpoint join (sep : string) (items : list string) : string :=
  match items with
  | [] => EmptyString
  | [x] => x
  | x :: rest => x ++ sep ++ join sep rest
  end.

(** [str(n)] for a non-negative integer. *)
Definition of_nat (n : nat) : string :=
  NilZero.string_of_uint (Nat.to_uint n).

(** Code-point order, the order [sorted] puts strings in. *)
Fixpoint leb (a b : string) : bool :=
  match a, b with
  | EmptyString, _ => true
  | String _ _, EmptyString => false
  | String x a', String y b' =>
      let nx := nat_of_ascii x in
      let ny := nat_of_ascii y in
      if (nx <? ny)%nat then true
      else if (ny <? nx)%nat then false
      else leb a' b'
  end.

End PyStr.


(** ** Python floats

    [float] is IEEE binary64.  [float(s)] reads the grammar of the language
    reference (sign, [inf], [infinity], [nan], decimal digits with single
    underscores between them, fraction, exponent) and rounds the decimal
    to the nearest double, ties to even. *)

Module PyFloat.

Definition is_digit (c : ascii) : bool :=
  let n := nat_of_ascii c in (48 <=? n)%nat && (n <=? 57)%nat.

Definition digit_value (c : ascii) : Z := Z.of_nat (nat_of_ascii c - 48).

(** [(["_"] digit)*] after a first digit: [m] is the number read so far and
    [k] the count of digits. *)
Fixpoint digits_more (m : Z) (k : nat) (s : string) : Z * nat * string :=
  match s with
  | String c s' =>
      if is_digit c then digits_more (10 * m + digit_value c)%Z (S k) s'
      else if Ascii.eqb c "_" then
        match s' with
        | String d s'' =>
            if is_digit d then digits_more (10 * m + digit_value d)%Z (S k) s''
            else (m, k, s)
        | EmptyString => (m, k, s)
        end
      else (m, k, s)
  | EmptyString => (m, k, s)
  end.

(** [digitpart ::= digit (["_"] digit)*] *)
Definition digitpart (m : Z) (s : string) : option (Z * nat * string) :=
  match s with
  | String c s' =>
      if is_digit c then Some (digits_more (10 * m + digit_value c)%Z 1 s')
      else None
  | EmptyString => None
  end.

(** [number ::= [digitpart] "." digitpart | digitpart ["."]]: the digits as
    one integer, the decimal exponent the fraction gives, and the rest. *)
Definition number (s : string) : option (Z * Z * string) :=
  match digitpart 0%Z s with
  | Some (m, _, r) =>
      match r with
      | String "."%char r' =>
          match digitpart m r' with
          | Some (m', k, r'') => Some (m', (- Z.of_nat k)%Z, r'')
          | None => Some (m, 0%Z, r')
          end
      | _ => Some (m, 0%Z, r)
      end
  | None =>
      match s with
      | String "."%char r' =>
          match digitpart 0%Z r' with
          | Some (m', k, r'') => Some (m', (- Z.of_nat k)%Z, r'')
          | None => None
          end
      | _ => None
      end
  end.

(** [[sign]]: whether a minus was read, and the rest. *)
Definition sign (s : string) : bool * string :=
  match s with
  | String "-"%char r => (true, r)
  | String "+"%char r => (false, r)
  | _ => (false, s)
  end.

(** [exponent ::= ("e" | "E") [sign] digitpart] *)
Definition exponent (s : string) : option (Z * string) :=
  match s with
  | String c r =>
      if Ascii.eqb c "e" || Ascii.eqb c "E" then
        let (neg, r1) := sign r in
        match digitpart 0%Z r1 with
        | Some (x, _, r2) => Some (if neg then (- x)%Z else x, r2)
        | None => None
        end
      else None
  | EmptyString => None
  end.

Definition lower_char (c : ascii) : ascii :=
  let n := nat_of_ascii c in
  if (65 <=? n)%nat && (n <=? 90)%nat then ascii_of_nat (n + 32) else c.

Fixpoint lower (s : string) : string :=
  match s with
  | EmptyString => EmptyString
  | String c s' => String (lower_char c) (lower s')
  end.

(** The double nearest to [m * 10^e] (ties to even), negated when [neg]. *)
Definition of_decimal (neg : bool) (m e : Z) : PrimFloat.float :=
  match m with
  | Zpos p =>
      if (0 <=? e)%Z
      then SF2Prim (binary_round prec emax neg (p * Z.to_pos (10 ^ e)) 0%Z)
      else
        let '(q, e', l) :=
          SFdiv_core_binary prec emax (Zpos p) 0%Z (10 ^ (- e))%Z 0%Z in
        SF2Prim (binary_round_aux prec emax neg q e' l)
  | _ => if neg then PrimFloat.neg_zero else PrimFloat.zero
  end.

(** [float(s)] for a string. *)
Definition of_string (s : string) : result PrimFloat.float :=
  let (neg, body) := sign (PyStr.strip s) in
  let name := lower body in
  if String.eqb name "inf" || String.eqb name "infinity"
  then OK (if neg then PrimFloat.neg_infinity else PrimFloat.infinity)
  else if String.eqb name "nan" then OK PrimFloat.nan
  else
    match number body with
    | Some (m, e, EmptyString) => OK (of_decimal neg m e)
    | Some (m, e, r) =>
        match exponent r with
        | Some (x, EmptyString) => OK (of_decimal neg m (e + x))
        | _ => Err (ValueError "could not convert string to float")
        end
    | None => Err (ValueError "could not convert string to float")
    end.

(** [float(z)] for an integer: the nearest double, [OverflowError] when
    there is none. *)
Definition of_int (z : Z) : result PrimFloat.float :=
  let f := SF2Prim (binary_normalize prec emax z 0%Z false) in
  if PrimFloat.is_infinity f
  then Err (OverflowError "int too large to convert to float")
  else OK f.

End PyFloat.

(** ** Python values *)

#[local] Set Warnings "-register-all".

Inductive pyval : Type :=
| PNone
| PBool (b : bool)
| PInt (z : Z)
| PFloat (f : PrimFloat.float)
| PStr (s : string)
| PList (items : list pyval)
| PTuple (items : list pyval).

(** [isinstance(v, (list, tuple))] *)
Definition isinstance_list_tuple (v : pyval) : bool :=
  match v with
  | PList _ | PTuple _ => true
  | _ => false
  end.

(** [isinstance(v, (int, float))]; [bool] is a subclass of [int]. *)
Definition isinstance_int_float (v : pyval) : bool :=
  match v with
  | PBool _ | PInt _ | PFloat _ => true
  | _ => false
  end.

Fixpoint chars (s : string) : list pyval :=
  match s with
  | EmptyString => []
  | String c s' => PStr (String c EmptyString) :: chars s'
  end.

(** [iter(v)], read to the end. *)
Definition py_iter (v : pyval) : result (list pyval) :=
  match v with
  | PList items | PTuple items => OK items
  | PStr s => OK (chars s)
  | _ => Err (TypeError "object is not iterable")
  end.

(** [len(v)] *)
Definition py_len (v : pyval) : result nat :=
  match v with
  | PList items | PTuple items => OK (List.length items)
  | PStr s => OK (String.length s)
  | _ => Err (TypeError "object has no len()")
  end.

(** [v[-1]] *)
Definition py_last (v : pyval) : result pyval :=
  match v with
  | PList items | PTuple items =>
      match rev items with
      | x :: _ => OK x
      | [] => Err (IndexError "index out of range")
      end
  | PStr s =>
      match rev (chars s) with
      | x :: _ => OK x
      | [] => Err (IndexError "string index out of range")
      end
  | _ => Err (TypeError "object is not subscriptable")
  end.

(** [v.strip()]: a method of strings. *)
Definition py_strip (v : pyval) : result string :=
  match v with
  | PStr s => OK (PyStr.strip s)
  | _ => Err (AttributeError "strip")
  end.

(** A loop [for x in xs: if not check(x): return False]: whether it ran to
    its end. *)
Fixpoint all_pass (check : pyval -> result bool) (xs : list pyval)
  : result bool :=
  match xs with
  | [] => OK true
  | x :: xs' => b <- check x ;; if b then all_pass check xs' else OK false
  end.

(** ** The validator *)

(** The test of line 107: [not isinstance(term, (list, tuple)) or
    len(term) != 2 or not isinstance(term[-1], (int, float))]. *)
Definition malformed_term (term : pyval) : result bool :=
  if negb (isinstance_list_tuple term) then OK true
  else
    n <- py_len term ;;
    if negb (n =? 2)%nat then OK true
    else x <- py_last term ;; OK (negb (isinstance_int_float x)).

Definition descriptor_passes (descriptor : pyval) : result bool :=
  if negb (isinstance_list_tuple descriptor) then OK false
  else
    terms <- py_iter descriptor ;;
    all_pass (fun term => bad <- malformed_term term ;; OK (negb bad)) terms.

Definition _is_structured_label_vector (label_vector : pyval) : result bool :=
  if negb (isinstance_list_tuple label_vector) then OK false
  else
    descriptors <- py_iter label_vector ;;
    passed <- all_pass descriptor_passes descriptors ;;
    if negb passed then OK false
    else
      n <- py_len label_vector ;;
      if (n =? 0)%nat then OK false
      else
        lens <- map_result py_len descriptors ;;
        if (list_sum lens =? 0)%nat then OK false else OK true.

(** ** Labels, powers and the ordered dictionary of a term *)

Inductive label : Type :=
| LName (name : string)
| LIndex (i : nat).

Inductive pynum : Type :=
| NInt (z : Z)
| NFloat (f : PrimFloat.float).

Definition label_eqb (a b : label) : bool :=
  match a, b with
  | LName x, LName y => String.eqb x y
  | LIndex i, LIndex j => Nat.eqb i j
  | _, _ => false
  end.

(** [a + b] on numbers: an integer operand of a float sum is converted. *)
Definition py_add (a b : pynum) : result pynum :=
  match a, b with
  | NInt x, NInt y => OK (NInt (x + y))
  | NInt x, NFloat g => f <- PyFloat.of_int x ;; OK (NFloat (PrimFloat.add f g))
  | NFloat f, NInt y => g <- PyFloat.of_int y ;; OK (NFloat (PrimFloat.add f g))
  | NFloat f, NFloat g => OK (NFloat (PrimFloat.add f g))
  end.

(** [o != 0] *)
Definition ne_zero (o : pynum) : bool :=
  match o with
  | NInt z => negb (z =? 0)%Z
  | NFloat f => negb (PrimFloat.eqb f PrimFloat.zero)
  end.

(** [np.isfinite(o)]; the integers of a term are counts of factors. *)
Definition isfinite (o : pynum) : bool :=
  match o with
  | NInt _ => true
  | NFloat f => PrimFloat.is_finite f
  end.

Definition ordered_dict : Type := list (label * pynum).

(** [d.get(k, default)] *)
Fixpoint od_get (d : ordered_dict) (k : label) (default : pynum) : pynum :=
  match d with
  | [] => default
  | (k', v) :: d' => if label_eqb k' k then v else od_get d' k default
  end.

(** [d[k] = v]: a key already there keeps its place. *)
Fixpoint od_set (d : ordered_dict) (k : label) (v : pynum) : ordered_dict :=
  match d with
  | [] => [(k, v)]
  | (k', v') :: d' =>
      if label_eqb k' k then (k', v) :: d' else (k', v') :: od_set d' k v
  end.

(** [k in d] *)
Definition has_key (d : ordered_dict) (l : label) : bool :=
  existsb (fun k => label_eqb k l) (map fst d).

(** [list(columns).index(x)] *)
Fixpoint index_of (x : string) (columns : list string) : option nat :=
  match columns with
  | [] => None
  | c :: rest =>
      if String.eqb c x then Some O
      else match index_of x rest with
           | Some i => Some (S i)
           | None => None
           end
  end.

(** ** The parser *)

(** The operators [kwds] holds after [kwds.update(kwargs)]. *)
Record kwds : Type := { sep : string; mul : string; pow : string }.

(** [dict(zip(("sep", "mul", "pow"), "+*^"))] *)
Definition default_kwds : kwds := {| sep := "+"; mul := "*"; pow := "^" |}.

(** [lambda t: float(t.split(pow)[1].strip()) if pow in t else 1] *)
Definition get_power (pow : string) (t : string) : result pynum :=
  if PyStr.contains pow t then
    parts <- PyStr.split t pow ;;
    match nth_error parts 1 with
    | Some p => f <- PyFloat.of_string (PyStr.strip p) ;; OK (NFloat f)
    | None => Err (IndexError "list index out of range")
    end
  else OK (NInt 1).

(** [lambda d: d.split(pow)[0].strip()], or its position in [columns]. *)
Definition get_label (columns : option (list string)) (pow : string)
           (d : string) : result label :=
  parts <- PyStr.split d pow ;;
  match nth_error parts 0 with
  | Some p =>
      let name := PyStr.strip p in
      match columns with
      | None => OK (LName name)
      | Some cols =>
          match index_of name cols with
          | Some i => OK (LIndex i)
          | None => Err (ValueError "is not in list")
          end
      end
  | None => Err (IndexError "list index out of range")
  end.

(** Lines 186-187 for one factor, its label read before its power. *)
Definition collect_step (columns : option (list string)) (pow : string)
           (term : ordered_dict) (factor : string) : result ordered_dict :=
  label <- get_label columns pow factor ;;
  order <- get_power pow factor ;;
  v <- py_add (od_get term label (NInt 0)) order ;;
  OK (od_set term label v).

(** Lines 182-187: the dictionary of one descriptor, its factors taken in
    order. *)
Definition collect_term (columns : option (list string)) (pow : string)
           (descriptor : list string) : result ordered_dict :=
  for_each descriptor [] (collect_step columns pow).

(** [[(l, o) for l, o in term.items() if o != 0]] *)
Definition valid_terms_of (term : ordered_dict) : ordered_dict :=
  filter (fun lo => ne_zero (snd lo)) term.

(** [np.all(np.isfinite([o for l, o in valid_terms]))] *)
Definition all_finite (valid_terms : ordered_dict) : bool :=
  forallb (fun lo => isfinite (snd lo)) valid_terms.

(** Lines 180-187: one item split into its factors and collected. *)
Definition term_dict (columns : option (list string)) (k : kwds)
           (item : string) : result ordered_dict :=
  descriptor <- PyStr.split item (mul k) ;;
  collect_term columns (pow k) descriptor.

(** One turn of the loop of line 180, up to the test of line 194. *)
Definition parse_item (columns : option (list string)) (k : kwds)
           (item : string) : result ordered_dict :=
  term <- term_dict columns k item ;;
  let valid_terms := valid_terms_of term in
  if negb (all_finite valid_terms)
  then Err (ValueError "non-finite power provided")
  else OK valid_terms.

(** One turn of the loop of line 180. *)
Definition parse_step (columns : option (list string)) (k : kwds)
           (label_vector : list ordered_dict) (item : string)
  : result (list ordered_dict) :=
  valid_terms <- parse_item columns k item ;;
  OK (if (0 <? List.length valid_terms)%nat
      then label_vector ++ [valid_terms]
      else label_vector).

Definition py_of_label (l : label) : pyval :=
  match l with
  | LName s => PStr s
  | LIndex i => PInt (Z.of_nat i)
  end.

Definition py_of_num (o : pynum) : pyval :=
  match o with
  | NInt z => PInt z
  | NFloat f => PFloat f
  end.

(** The label vector as the Python value returned: a list of lists of
    2-tuples. *)
Definition py_of_label_vector (label_vector : list ordered_dict) : pyval :=
  PList (map (fun valid_terms =>
                PList (map (fun lo => PTuple [py_of_label (fst lo); py_of_num (snd lo)])
                           valid_terms))
             label_vector).

(** [sum(map(len, label_vector))] *)
Definition total_length (label_vector : list ordered_dict) : nat :=
  list_sum (map (@List.length _) label_vector).

(** Lines 168-170: the stripped items of a description that is a string or
    a sequence of strings. *)
Definition description_items (description : pyval) (sep : string)
  : result (list string) :=
  pieces <- match description with
            | PStr s => parts <- PyStr.split s sep ;; OK (map PStr parts)
            | _ => py_iter description
            end ;;
  map_result py_strip pieces.

Definition parse_label_vector_description (description : pyval)
           (columns : option (list string)) (k : kwds) : result pyval :=
  structured <- _is_structured_label_vector description ;;
  if structured then OK description
  else
    items <- description_items description (sep k) ;;
    label_vector <- for_each items [] (parse_step columns k) ;;
    if (total_length label_vector =? 0)%nat
    then Err (ValueError "no valid terms provided")
    else OK (py_of_label_vector label_vector).

(** ** Name resolution

    A name a function body reads is a local of the function, a global of
    the module or a builtin; otherwise reading it raises [NameError]. *)

(** The names the module binds at its top level: the imports of lines
    8-18, [__all__], the class and the three functions, and the names every
    module has. *)
Definition module_globals : list string :=
  [ "__name__"; "__doc__"; "__package__"; "__loader__"; "__spec__";
    "__file__"; "__builtins__";
    "division"; "print_function"; "absolute_import"; "unicode_literals";
    "__all__"; "np"; "Counter"; "OrderedDict"; "string_types";
    "BaseVectorizer"; "PolynomialVectorizer";
    "_is_structured_label_vector"; "parse_label_vector_description";
    "build_label_vector" ].

Definition builtins : list string :=
  [ "abs"; "aiter"; "all"; "anext"; "any"; "ascii"; "bin"; "bool";
    "breakpoint"; "bytearray"; "bytes"; "callable"; "chr"; "classmethod";
    "compile"; "complex"; "delattr"; "dict"; "dir"; "divmod"; "enumerate";
    "eval"; "exec"; "filter"; "float"; "format"; "frozenset"; "getattr";
    "globals"; "hasattr"; "hash"; "help"; "hex"; "id"; "input"; "int";
    "isinstance"; "issubclass"; "iter"; "len"; "list"; "locals"; "map";
    "max"; "memoryview"; "min"; "next"; "object"; "oct"; "open"; "ord";
    "pow"; "print"; "property"; "range"; "repr"; "reversed"; "round";
    "set"; "setattr"; "slice"; "sorted"; "staticmethod"; "str"; "sum";
    "super"; "tuple"; "type"; "vars"; "zip"; "__import__";
    "None"; "True"; "False"; "Ellipsis"; "NotImplemented"; "__debug__";
    "BaseException"; "Exception"; "ArithmeticError"; "AssertionError";
    "AttributeError"; "BufferError"; "EOFError"; "FloatingPointError";
    "GeneratorExit"; "ImportError"; "ModuleNotFoundError"; "IndexError";
    "KeyError"; "KeyboardInterrupt"; "LookupError"; "MemoryError";
    "NameError"; "NotImplementedError"; "OSError"; "IOError";
    "OverflowError"; "RecursionError"; "ReferenceError"; "RuntimeError";
    "StopIteration"; "StopAsyncIteration"; "SyntaxError";
    "IndentationError"; "TabError"; "SystemError"; "SystemExit";
    "TypeError"; "UnboundLocalError"; "UnicodeError";
    "UnicodeDecodeError"; "UnicodeEncodeError"; "UnicodeTranslateError";
    "ValueError"; "ZeroDivisionError"; "Warning"; "UserWarning";
    "DeprecationWarning"; "RuntimeWarning"; "FutureWarning" ].

Definition name_bound (locals globals : list string) (name : string) : bool :=
  existsb (String.eqb name) (locals ++ globals ++ builtins).

(** Reading [name], whose value would be [value]. *)
Definition load_name {A : Type} (locals globals : list string)
           (name : string) (value : A) : result A :=
  if name_bound locals globals name then OK value else Err (NameError name).

(** ** The builder *)

(** [itertools.combinations_with_replacement(pool, r)], in the order it
    yields. *)
Fixpoint combinations_with_replacement {A : Type} (pool : list A) (r : nat)
  : list (list A) :=
  match r with
  | O => [[]]
  | S r' =>
      (fix from (pool : list A) : list (list A) :=
         match pool with
         | [] => []
         | x :: rest =>
             map (cons x) (combinations_with_replacement pool r') ++ from rest
         end) pool
  end.

(** [d[k] = d.get(k, 0) + 1] on a counter with keys in first-seen order. *)
Fixpoint count_up (d : list (string * nat)) (k : string) : list (string * nat) :=
  match d with
  | [] => [(k, 1)]
  | (k', n) :: d' =>
      if String.eqb k' k then (k', S n) :: d' else (k', n) :: count_up d' k
  end.

(** [Counter(t)] *)
Definition Counter (t : list string) : list (string * nat) :=
  fold_left count_up t [].

Fixpoint insert_sorted (kv : string * nat) (d : list (string * nat))
  : list (string * nat) :=
  match d with
  | [] => [kv]
  | kv' :: d' =>
      if PyStr.leb (fst kv) (fst kv') then kv :: d
      else kv' :: insert_sorted kv d'
  end.

(** [OrderedDict([(k, t[k]) for k in sorted(t.keys())])] *)
Definition sorted_by_key (t : list (string * nat)) : list (string * nat) :=
  fold_right insert_sorted [] t.

(** [max(t.values())] for a counter that has a key. *)
Definition max_value (t : list (string * nat)) : nat :=
  fold_right Nat.max 0 (map snd t).

(** [pow.join([[l], [l, str(p)]][p > 1])] *)
Definition render_factor (pow : string) (lp : string * nat) : string :=
  if (1 <? snd lp)%nat
  then PyStr.join pow [fst lp; PyStr.of_nat (snd lp)]
  else PyStr.join pow [fst lp].

(** Lines 243-247 for one counter [t]. *)
Definition add_item (mul pow : string) (order cross_term_order : Z)
           (items : list string) (t : list (string * nat)) : list string :=
  let t := sorted_by_key t in
  if ((List.length t =? 1)%nat && (order >=? Z.of_nat (max_value t))%Z)
     || ((1 <? List.length t)%nat && (cross_term_order >=? Z.of_nat (max_value t))%Z)
  then
    let c := map (render_factor pow) t in
    match c with
    | [] => items
    | _ => items ++ [PyStr.join mul c]
    end
  else items.

Definition build_label_vector_locals : list string :=
  [ "labels"; "order"; "cross_term_order"; "kwargs"; "sep"; "mul"; "pow";
    "items"; "o"; "t"; "c" ].

(** [build_label_vector] run in a module whose globals are [globals]. *)
Definition build_label_vector_in (globals : list string)
           (labels : list string) (order cross_term_order : Z) (k : kwds)
  : result string :=
  let cross_term_order :=
    if (0 >? cross_term_order)%Z then (order - 1)%Z else cross_term_order in
  items <-
    for_each (seq 1 (Z.to_nat (Z.max order (1 + cross_term_order)))) []
      (fun items o =>
         combinations <-
           load_name build_label_vector_locals globals
             "combinations_with_replacement"
             (combinations_with_replacement labels o) ;;
         OK (fold_left (add_item (mul k) (pow k) order cross_term_order)
                       (map Counter combinations) items)) ;;
  OK (PyStr.join (" " ++ sep k ++ " ") items).

(** The function as the module has it. *)
Definition build_label_vector : list string -> Z -> Z -> kwds -> result string :=
  build_label_vector_in module_globals.

(** ** Arrays

    An array of doubles: its shape and its items in row-major order. *)

Record ndarray : Type := { shape : list nat; data : list PrimFloat.float }.

(** [a.ndim] *)
Definition ndim (a : ndarray) : nat := List.length (shape a).

(** [a.size] *)
Definition size (a : ndarray) : nat := fold_right Nat.mul 1 (shape a).

(** [a.reshape((1, a.size))] *)
Definition reshape_row (a : ndarray) : ndarray :=
  {| shape := [1; size a]; data := data a |}.

(** [np.ones(n, dtype=float)] *)
Definition ones (n : nat) : ndarray :=
  {| shape := [n]; data := repeat PrimFloat.one n |}.

(** [a op v] for a two-dimensional [a] and a one-dimensional [v], by the
    broadcasting rule: the widths agree or one of them is 1. *)
Definition broadcast (op : PrimFloat.float -> PrimFloat.float -> PrimFloat.float)
           (a : ndarray) (v : list PrimFloat.float) : result ndarray :=
  match shape a with
  | [n; k] =>
      let f := List.length v in
      if (k =? f)%nat || (f =? 1)%nat || (k =? 1)%nat then
        let width := if (k =? 1)%nat then f else k in
        OK {| shape := [n; width];
              data :=
                flat_map
                  (fun i =>
                     map (fun j =>
                            op (nth (i * k + (if (k =? 1)%nat then 0 else j))
                                    (data a) PrimFloat.zero)
                               (nth (if (f =? 1)%nat then 0 else j)
                                    v PrimFloat.zero))
                         (seq 0 width))
                  (seq 0 n) |}
      else Err (ValueError "operands could not be broadcast together")
  | _ => Err (ValueError "operands could not be broadcast together")
  end.

(** The part of numpy left open: [a[index]] for an index that is not an
    integer, [a ** order], and [column * a]. *)
Record numpy : Type := {
  getitem_other : ndarray -> pyval -> result ndarray;
  power : ndarray -> pyval -> result ndarray;
  multiply : ndarray -> ndarray -> result ndarray
}.

(** Whether an integer fits the C long numpy converts an index to. *)
Definition c_long_max : Z := 9223372036854775807%Z.

Definition fits_c_long (i : Z) : bool :=
  ((- c_long_max - 1 <=? i)%Z && (i <=? c_long_max)%Z)%bool.

(** [a[index]]: an integer selects along the first axis, counting from the
    end when negative.  An integer that does not fit a C long raises
    [OverflowError] and one that fits but is outside the rows raises
    [IndexError]; an array has fewer rows than a C long can count, so an
    index within the rows always fits. *)
Definition getitem (np : numpy) (a : ndarray) (index : pyval) : result ndarray :=
  match index with
  | PInt i =>
      match shape a with
      | n :: rest =>
          let i' := if (i <? 0)%Z then (i + Z.of_nat n)%Z else i in
          if (0 <=? i')%Z && (i' <? Z.of_nat n)%Z then
            let w := fold_right Nat.mul 1 rest in
            OK {| shape := rest;
                  data := firstn w (skipn (Z.to_nat i' * w) (data a)) |}
          else if fits_c_long i
               then Err (IndexError "index is out of bounds for axis 0")
               else Err (OverflowError "Python int too large to convert to C long")
      | [] =>
          if fits_c_long i
          then Err (IndexError "too many indices for array")
          else Err (OverflowError "Python int too large to convert to C long")
      end
  | _ => getitem_other np a index
  end.

(** [np.atleast_2d(a).shape] *)
Definition atleast_2d_shape (a : ndarray) : list nat :=
  match shape a with
  | [] => [1; 1]
  | [n] => [1; n]
  | s => s
  end.

(** [np.vstack(columns)]: the arrays, each at least two-dimensional, one
    under the other; they must agree on every axis but the first. *)
Definition vstack (columns : list ndarray) : result ndarray :=
  match columns with
  | [] => Err (ValueError "need at least one array to concatenate")
  | first :: _ =>
      let trailing := tl (atleast_2d_shape first) in
      if forallb (fun c => if list_eq_dec Nat.eq_dec (tl (atleast_2d_shape c)) trailing
                           then true else false) columns
      then OK {| shape := list_sum (map (fun c => hd 0 (atleast_2d_shape c)) columns)
                            :: trailing;
                 data := flat_map data columns |}
      else Err (ValueError "all the input array dimensions must match exactly")
  end.

(** ** The vectorizer *)

(** Modelled from the spec: [BaseVectorizer] (module [.base], outside the
    source at hand) stores the ordered label names, the fiducial offsets,
    the scales and the raw terms, one fiducial and one scale per label. *)
Record PolynomialVectorizer : Type := {
  labels : list string;
  fiducials : list PrimFloat.float;
  scales : list PrimFloat.float;
  terms : pyval;
  _parsed_terms : pyval
}.

(** [PolynomialVectorizer.__init__] *)
Definition __init__ (labels : list string)
           (fiducials scales : list PrimFloat.float) (terms : pyval)
  : result PolynomialVectorizer :=
  parsed <- parse_label_vector_description terms (Some labels) default_kwds ;;
  OK {| labels := labels; fiducials := fiducials; scales := scales;
        terms := terms; _parsed_terms := parsed |}.

Definition get_label_vector_locals : list string :=
  [ "self"; "labels"; "N"; "scaled_labels"; "columns"; "term"; "column";
    "index"; "order" ].

(** [for index, order in term]: one item unpacked into two names. *)
Definition unpack2 (item : pyval) : result (pyval * pyval) :=
  parts <- py_iter item ;;
  match parts with
  | [index; order] => OK (index, order)
  | _ => Err (ValueError "wrong number of values to unpack")
  end.

(** Lines 76-79 for one factor of a term. *)
Definition factor_step (np : numpy) (globals : list string)
           (scaled_labels : ndarray) (column : ndarray) (factor : pyval)
  : result ndarray :=
  '(index, order) <- unpack2 factor ;;
  x <- getitem np scaled_labels index ;;
  y <- power np x order ;;
  column <- multiply np column y ;;
  _ <- load_name get_label_vector_locals globals "a" column ;;
  Err (Raised "a").

(** Lines 74-79: the column of one term, from [column = 1.]. *)
Definition term_column (np : numpy) (globals : list string)
           (scaled_labels : ndarray) (term : pyval) : result ndarray :=
  factors <- py_iter term ;;
  for_each factors {| shape := []; data := [PrimFloat.one] |}
    (factor_step np globals scaled_labels).

(** Lines 73-80 for one term. *)
Definition column_step (np : numpy) (globals : list string)
           (scaled_labels : ndarray) (columns : list ndarray) (term : pyval)
  : result (list ndarray) :=
  column <- term_column np globals scaled_labels term ;;
  OK (columns ++ [column]).

(** [get_label_vector] run in a module whose globals are [globals];
    [labels] is the array [np.array(labels)] makes. *)
Definition get_label_vector_in (np : numpy) (globals : list string)
           (self : PolynomialVectorizer) (labels : ndarray) : result ndarray :=
  labels <- (if (ndim labels =? 1)%nat then OK (reshape_row labels)
             else if (2 <? ndim labels)%nat
                  then Err (ValueError "labels must be a 1-d or 2-d array")
                  else OK labels) ;;
  N <- match nth_error (shape labels) 0 with
       | Some n => OK n
       | None => Err (IndexError "tuple index out of range")
       end ;;
  shifted <- broadcast PrimFloat.sub labels (fiducials self) ;;
  scaled_labels <- broadcast PrimFloat.div shifted (scales self) ;;
  parsed <- py_iter (_parsed_terms self) ;;
  columns <- for_each parsed [ones N] (column_step np globals scaled_labels) ;;
  vstack columns.

(** The method as the module has it. *)
Definition get_label_vector (np : numpy)
  : PolynomialVectorizer -> ndarray -> result ndarray :=
  get_label_vector_in np module_globals.

(** [get_label_vector_derivative] *)
Definition get_label_vector_derivative (self : PolynomialVectorizer)
           (labels : ndarray) (d_label : pyval) : result ndarray :=
  Err (NotImplementedError "soon..").

(** The values of two lists combined pairwise. *)
Fixpoint zip_with (op : PrimFloat.float -> PrimFloat.float -> PrimFloat.float)
         (xs ys : list PrimFloat.float) : list PrimFloat.float :=
  match xs, ys with
  | x :: xs', y :: ys' => op x y :: zip_with op xs' ys'
  | _, _ => []
  end.

(** The exponent when it is 0 or 1, given as an [int], a [bool] or a
    [float]. *)
Definition zero_or_one (order : pyval) : option bool :=
  match order with
  | PInt 0%Z | PBool false => Some false
  | PInt 1%Z | PBool true => Some true
  | PFloat f =>
      if PrimFloat.eqb f PrimFloat.zero then Some false
      else if PrimFloat.eqb f PrimFloat.one then Some true
      else None
  | _ => None
  end.

(** The part of numpy that is exact on doubles and needs no more than
    their product: the powers 0 and 1, the product by a scalar and the
    product of arrays of one shape.  It stands for numpy on the runs that
    stay within these; any other index, power or product is outside it and
    is marked by [NotImplementedError], which numpy does not raise. *)
Definition whole_numpy : numpy :=
  {| getitem_other := fun _ _ =>
       Err (NotImplementedError "index that is not an integer");
     power := fun a order =>
       match zero_or_one order with
       | Some true => OK a
       | Some false =>
           OK {| shape := shape a; data := map (fun _ => PrimFloat.one) (data a) |}
       | None => Err (NotImplementedError "power other than 0 and 1")
       end;
     multiply := fun column y =>
       match shape column, data column with
       | [], [c] => OK {| shape := shape y; data := map (PrimFloat.mul c) (data y) |}
       | _, _ =>
           if list_eq_dec Nat.eq_dec (shape column) (shape y)
           then OK {| shape := shape y;
                      data := zip_with PrimFloat.mul (data column) (data y) |}
           else Err (NotImplementedError "product of arrays of different shapes")
       end |}.

(** ** Shapes of structured label vectors *)

(** The items of a list or a tuple. *)
Definition sequence_items (v : pyval) : option (list pyval) :=
  match v with
  | PList items | PTuple items => Some items
  | _ => None
  end.

(** [len] of a term that is a list or a tuple. *)
Definition term_length (t : pyval) : nat :=
  match sequence_items t with
  | Some pairs => List.length pairs
  | None => 0
  end.

(** A (label, power) pair: a list or tuple of exactly two items, the
    second an [int] or a [float]. *)
Definition is_pair (p : pyval) : Prop :=
  exists l o, sequence_items p = Some [l; o] /\ isinstance_int_float o = true.

(** A term: a list or tuple of pairs, possibly empty. *)
Definition is_term (t : pyval) : Prop :=
  exists pairs, sequence_items t = Some pairs /\ Forall is_pair pairs.

(** What the validator accepts: a non-empty list or tuple of terms whose
    lengths add up to more than zero. *)
Definition structured (x : pyval) : Prop :=
  exists ts,
    sequence_items x = Some ts /\ ts <> [] /\ Forall is_term ts /\
    0 < list_sum (map term_length ts).

(** The contract as the specification words it: every term is itself
    non-empty. *)
Definition structured_as_specified (x : pyval) : Prop :=
  exists ts,
    sequence_items x = Some ts /\ ts <> [] /\
    Forall (fun t => is_term t /\ 0 < term_length t) ts /\
    0 < list_sum (map term_length ts).

Definition pair_b (p : pyval) : bool :=
  match sequence_items p with
  | Some [_; o] => isinstance_int_float o
  | _ => false
  end.

Definition term_b (t : pyval) : bool :=
  match sequence_items t with
  | Some pairs => forallb pair_b pairs
  | None => false
  end.

Definition structured_b (x : pyval) : bool :=
  match sequence_items x with
  | Some ts =>
      forallb term_b ts && negb (List.length ts =? 0)%nat
      && negb (list_sum (map term_length ts) =? 0)%nat
  | None => false
  end.

(** ** The factors of a term, read apart from their collection *)

(** The label and the power of one factor. *)
Definition read_factor (columns : option (list string)) (pow : string)
           (factor : string) : result (label * pynum) :=
  label <- get_label columns pow factor ;;
  order <- get_power pow factor ;;
  OK (label, order).

(** The powers, in order, of the factors whose label is [l]. *)
Definition powers_of (l : label) (factors : list (label * pynum)) : list pynum :=
  map snd (filter (fun lo => label_eqb (fst lo) l) factors).

(** [((0 + o1) + o2) + ...] *)
Definition sum_powers (orders : list pynum) : result pynum :=
  for_each orders (NInt 0) py_add.

(** The labels in the order of their first occurrence. *)
Fixpoint first_seen (ls : list label) : list label :=
  match ls with
  | [] => []
  | l :: rest => l :: filter (fun x => negb (label_eqb x l)) (first_seen rest)
  end.

(** [term[l] = term.get(l, 0) + o] *)
Definition add_factor (term : ordered_dict) (lo : label * pynum)
  : result ordered_dict :=
  v <- py_add (od_get term (fst lo) (NInt 0)) (snd lo) ;;
  OK (od_set term (fst lo) v).

(** Whether a string is empty or holds whitespace only. *)
Fixpoint all_space (s : string) : bool :=
  match s with
  | EmptyString => true
  | String c s' => PyStr.is_space c && all_space s'
  end.

(** A vectorizer over two labels with fiducials 0 and scales 1, and one
    row of label values. *)
Definition two_label_vectorizer : PolynomialVectorizer :=
  {| labels := ["Teff"; "logg"];
     fiducials := [0%float; 0%float];
     scales := [1%float; 1%float];
     terms := PStr "Teff + logg^2";
     _parsed_terms := PList [PList [PTuple [PInt 0; PInt 1]];
                             PList [PTuple [PInt 1; PFloat 2%float]]] |}.

Definition one_row : ndarray :=
  {| shape := [2]; data := [5777%float; 4.5%float] |}.

(** ** Characters of a string *)

(** Whether the character [c] occurs in [s]. *)
Fixpoint has_char (c : ascii) (s : string) : bool :=
  match s with
  | EmptyString => false
  | String a s' => Ascii.eqb c a || has_char c s'
  end.

(** The operator made of the one character [c]. *)
Definition one_char (c : ascii) : string := String c EmptyString.

(** [s] with whitespace added at either end. *)
Definition padded (s t : string) : Prop :=
  exists lead trail,
    all_space lead = true /\ all_space trail = true /\
    t = (lead ++ s ++ trail)%string.

(** [lead] put before the first field of a list of fields. *)
Definition prefix_first (lead : string) (fields : list string) : list string :=
  match fields with
  | [] => []
  | p :: rest => (lead ++ p)%string :: rest
  end.

(** [trail] put after the last field of a list of fields. *)
Fixpoint append_last (fields : list string) (trail : string) : list string :=
  match fields with
  | [] => []
  | [p] => [(p ++ trail)%string]
  | p :: rest => p :: append_last rest trail
  end.

(** What [lstrip] returns is empty or begins with a character that is not
    whitespace. *)
Definition stripped_left (s : string) : Prop :=
  match s with
  | EmptyString => True
  | String c _ => PyStr.is_space c = false
  end.

(** Whether [s] is empty or ends with a character that is not
    whitespace. *)
Fixpoint clean_end (s : string) : bool :=
  match s with
  | EmptyString => true
  | String c s' =>
      match s' with
      | EmptyString => negb (PyStr.is_space c)
      | String _ _ => clean_end s'
      end
  end.

(** Whether [s] has no whitespace at either end. *)
Definition trimmed (s : string) : bool :=
  match s with
  | EmptyString => true
  | String c _ => negb (PyStr.is_space c) && clean_end s
  end.

(** * Properties *)

(** ** The primitives on examples *)

Example split_plain :
  PyStr.split "Teff^4 + logg*Teff^3" "+" = OK ["Teff^4 "; " logg*Teff^3"].
Proof. reflexivity. Qed.

Example split_long_separator : PyStr.split "a**b**" "**" = OK ["a"; "b"; ""].
Proof. reflexivity. Qed.

Example split_overlapping : PyStr.split "aaa" "aa" = OK [""; "a"].
Proof. reflexivity. Qed.

Example split_empty_separator :
  PyStr.split "a b" "" = Err (ValueError "empty separator").
Proof. reflexivity. Qed.

Example strip_both_ends : PyStr.strip "  logg " = "logg".
Proof. reflexivity. Qed.

Example float_of_tenth : PyFloat.of_string "0.1" = OK 0x1.999999999999ap-4%float.
Proof. vm_compute. reflexivity. Qed.

Example float_ties_to_even :
  PyFloat.of_string "9007199254740993" = OK 9007199254740992%float.
Proof. vm_compute. reflexivity. Qed.

Example float_with_exponent : PyFloat.of_string " -1_0.5E+1 " = OK (-105)%float.
Proof. vm_compute. reflexivity. Qed.

Example float_overflows_to_infinity : PyFloat.of_string "1e400" = OK infinity.
Proof. vm_compute. reflexivity. Qed.

Example float_smallest : PyFloat.of_string "4.9e-324" = OK 0x1p-1074%float.
Proof. vm_compute. reflexivity. Qed.

Example float_rejects_words :
  PyFloat.of_string "two" = Err (ValueError "could not convert string to float").
Proof. vm_compute. reflexivity. Qed.

Example combinations_of_two :
  combinations_with_replacement ["A"; "B"; "C"] 2
  = [["A"; "A"]; ["A"; "B"]; ["A"; "C"]; ["B"; "B"]; ["B"; "C"]; ["C"; "C"]].
Proof. reflexivity. Qed.

(** Every other name the builder and the evaluator read is bound. *)
Example names_read_are_bound :
  forallb (name_bound build_label_vector_locals module_globals)
          ["kwargs"; "order"; "cross_term_order"; "range"; "max"; "map";
           "Counter"; "labels"; "OrderedDict"; "sorted"; "len"; "str";
           "items"; "sep"; "mul"; "pow"] = true
  /\ forallb (name_bound get_label_vector_locals module_globals)
             ["np"; "labels"; "ValueError"; "self"; "float"; "term";
              "scaled_labels"; "index"; "order"; "columns"; "column"] = true.
Proof. split; reflexivity. Qed.

(** The docstring's description, parsed. *)
Example parse_docstring_description :
  parse_label_vector_description
    (PStr "Teff^4 + logg*Teff^3 + feh + feh^0*Teff") None default_kwds
  = OK (PList [PList [PTuple [PStr "Teff"; PFloat 4%float]];
               PList [PTuple [PStr "logg"; PInt 1];
                      PTuple [PStr "Teff"; PFloat 3%float]];
               PList [PTuple [PStr "feh"; PInt 1]];
               PList [PTuple [PStr "Teff"; PInt 1]]]).
Proof. vm_compute. reflexivity. Qed.

Example parse_list_of_strings :
  parse_label_vector_description
    (PList [PStr " Teff^2 "; PStr "logg * Teff"]) (Some ["Teff"; "logg"])
    default_kwds
  = OK (PList [PList [PTuple [PInt 0; PFloat 2%float]];
               PList [PTuple [PInt 1; PInt 1]; PTuple [PInt 0; PInt 1]]]).
Proof. vm_compute. reflexivity. Qed.

Example parse_rejects_numbers :
  parse_label_vector_description (PList [PInt 1]) None default_kwds
  = Err (AttributeError "strip").
Proof. vm_compute. reflexivity. Qed.

Example derivative_is_not_implemented :
  get_label_vector_derivative two_label_vectorizer one_row (PInt 0)
  = Err (NotImplementedError "soon..").
Proof. reflexivity. Qed.

(** ** The error monad *)

Lemma bind_ok {A B : Type} (r : result A) (k : A -> result B) (b : B) :
  bind r k = OK b -> exists a, r = OK a /\ k a = OK b.
Proof.
  destruct r as [a | e]; simpl; intros H.
  - exists a. split; [reflexivity | exact H].
  - discriminate H.
Qed.

Lemma all_pass_forallb (check : pyval -> result bool) (g : pyval -> bool) :
  (forall x, check x = OK (g x)) ->
  forall xs, all_pass check xs = OK (forallb g xs).
Proof.
  intros Hc xs. induction xs as [| x xs IH]; simpl.
  - reflexivity.
  - rewrite Hc. simpl. destruct (g x); simpl; [exact IH | reflexivity].
Qed.

(** ** The validator *)

Lemma malformed_term_spec (t : pyval) :
  malformed_term t = OK (negb (pair_b t)).
Proof.
  destruct t as [| b | z | f | s | items | items]; try reflexivity;
    destruct items as [| x [| y [| w rest]]]; reflexivity.
Qed.

Lemma descriptor_passes_spec (d : pyval) :
  descriptor_passes d = OK (term_b d).
Proof.
  destruct d as [| b | z | f | s | items | items]; try reflexivity;
    unfold descriptor_passes, term_b; simpl;
    apply all_pass_forallb; intros x; rewrite malformed_term_spec;
    simpl; rewrite negb_involutive; reflexivity.
Qed.

Lemma term_b_len (d : pyval) :
  term_b d = true -> py_len d = OK (term_length d).
Proof.
  destruct d; simpl; try discriminate; reflexivity.
Qed.

Lemma map_len_terms (ds : list pyval) :
  forallb term_b ds = true ->
  map_result py_len ds = OK (map term_length ds).
Proof.
  induction ds as [| d ds IH]; simpl; intros H.
  - reflexivity.
  - apply andb_true_iff in H. destruct H as [Hd Hds].
    rewrite (term_b_len d Hd). simpl. rewrite (IH Hds). reflexivity.
Qed.

Lemma validator_spec (x : pyval) :
  _is_structured_label_vector x = OK (structured_b x).
Proof.
  assert (Hseq : forall items (v : pyval),
             py_iter v = OK items -> py_len v = OK (List.length items) ->
             sequence_items v = Some items -> isinstance_list_tuple v = true ->
             _is_structured_label_vector v = OK (structured_b v)).
  { intros items v Hi Hl Hs Ht. unfold _is_structured_label_vector, structured_b.
    rewrite Ht, Hi, Hs. simpl.
    rewrite (all_pass_forallb descriptor_passes term_b descriptor_passes_spec).
    simpl. destruct (forallb term_b items) eqn:Hall; simpl; [| reflexivity].
    rewrite Hl. simpl.
    destruct (List.length items =? 0)%nat; simpl; [reflexivity |].
    rewrite (map_len_terms items Hall). simpl.
    destruct (list_sum (map term_length items) =? 0)%nat; reflexivity. }
  destruct x as [| b | z | f | s | items | items]; try reflexivity;
    apply (Hseq items); reflexivity.
Qed.

Lemma pair_b_iff (p : pyval) : pair_b p = true <-> is_pair p.
Proof.
  unfold pair_b, is_pair. split.
  - destruct (sequence_items p) as [[| l [| o [| w r]]] |]; try discriminate.
    intros H. exists l, o. split; [reflexivity | exact H].
  - intros (l & o & Hs & Ho). rewrite Hs. exact Ho.
Qed.

Lemma term_b_iff (t : pyval) : term_b t = true <-> is_term t.
Proof.
  unfold term_b, is_term. split.
  - destruct (sequence_items t) as [pairs |]; [| discriminate].
    intros H. exists pairs. split; [reflexivity |].
    apply Forall_forall. intros p Hp. apply pair_b_iff.
    rewrite forallb_forall in H. apply H, Hp.
  - intros (pairs & Hs & Hall). rewrite Hs.
    apply forallb_forall. intros p Hp. apply pair_b_iff.
    rewrite Forall_forall in Hall. apply Hall, Hp.
Qed.

Lemma structured_b_iff (x : pyval) : structured_b x = true <-> structured x.
Proof.
  unfold structured_b, structured. split.
  - destruct (sequence_items x) as [ts |]; [| discriminate].
    intros H. apply andb_true_iff in H. destruct H as [H Hsum].
    apply andb_true_iff in H. destruct H as [Hall Hlen].
    exists ts. split; [reflexivity |]. split; [| split].
    + intros ->. discriminate Hlen.
    + apply Forall_forall. intros t Ht. apply term_b_iff.
      rewrite forallb_forall in Hall. apply Hall, Ht.
    + apply negb_true_iff, Nat.eqb_neq in Hsum. lia.
  - intros (ts & Hs & Hne & Hall & Hsum). rewrite Hs.
    apply andb_true_iff. split; [apply andb_true_iff; split |].
    + apply forallb_forall. intros t Ht. apply term_b_iff.
      rewrite Forall_forall in Hall. apply Hall, Ht.
    + destruct ts; [contradiction | reflexivity].
    + apply negb_true_iff, Nat.eqb_neq. lia.
Qed.

(** C2, as the code has it: on every value the validator returns a boolean
    without raising, and it returns true exactly on a non-empty list or
    tuple of terms, each term a list or tuple (possibly empty) of pairs,
    each pair a list or tuple of exactly two items whose last is an [int]
    or a [float], with the lengths of the terms adding up to more than
    zero. *)
Theorem validator_total_and_exact (x : pyval) :
  exists b, _is_structured_label_vector x = OK b /\ (b = true <-> structured x).
Proof.
  exists (structured_b x). split.
  - apply validator_spec.
  - apply structured_b_iff.
Qed.

(** C2 as worded fails: a vector whose first term is empty is accepted,
    though not every term of it is non-empty. *)
Lemma validator_accepts_empty_term :
  _is_structured_label_vector
    (PList [PList []; PList [PTuple [PStr "a"; PInt 1]]]) = OK true
  /\ ~ structured_as_specified
         (PList [PList []; PList [PTuple [PStr "a"; PInt 1]]]).
Proof.
  split; [reflexivity |].
  intros (ts & Hs & _ & Hall & _). simpl in Hs. injection Hs as <-.
  inversion Hall as [| t rest [_ Hlen] _].
  unfold term_length in Hlen. simpl in Hlen. lia.
Qed.

(** What the specification asks for is accepted: its shapes are among
    those of [structured]. *)
Lemma structured_as_specified_accepted (x : pyval) :
  structured_as_specified x -> _is_structured_label_vector x = OK true.
Proof.
  intros (ts & Hs & Hne & Hall & Hsum). rewrite validator_spec. f_equal.
  apply structured_b_iff. exists ts. repeat split; try assumption.
  apply Forall_forall. intros t Ht. rewrite Forall_forall in Hall.
  apply (Hall t Ht).
Qed.

(** ** The parser returns structured vectors *)

Lemma encoded_term_b (valid_terms : ordered_dict) :
  term_b (PList (map (fun lo => PTuple [py_of_label (fst lo); py_of_num (snd lo)])
                     valid_terms)) = true.
Proof.
  unfold term_b. simpl. apply forallb_forall. intros p Hp.
  apply in_map_iff in Hp. destruct Hp as ([l o] & <- & _).
  destruct o; reflexivity.
Qed.

Lemma encoded_structured (label_vector : list ordered_dict) :
  total_length label_vector <> 0 ->
  structured_b (py_of_label_vector label_vector) = true.
Proof.
  intros Hlen. unfold structured_b, py_of_label_vector. simpl.
  apply andb_true_iff. split; [apply andb_true_iff; split |].
  - apply forallb_forall. intros t Ht. apply in_map_iff in Ht.
    destruct Ht as (vt & <- & _). apply encoded_term_b.
  - destruct label_vector; [contradiction Hlen; reflexivity | reflexivity].
  - apply negb_true_iff, Nat.eqb_neq. rewrite map_map.
    unfold total_length in Hlen.
    replace (map _ label_vector) with (map (@List.length _) label_vector); [exact Hlen |].
    apply map_ext. intros vt. unfold term_length. simpl.
    rewrite length_map. reflexivity.
Qed.

(** Off the fast path, a result is the encoding of the loop's vector. *)
Lemma parse_path (description : pyval) (columns : option (list string))
      (k : kwds) (y : pyval) :
  _is_structured_label_vector description = OK false ->
  parse_label_vector_description description columns k = OK y ->
  exists items label_vector,
    description_items description (sep k) = OK items /\
    for_each items [] (parse_step columns k) = OK label_vector /\
    total_length label_vector <> 0 /\
    y = py_of_label_vector label_vector.
Proof.
  intros Hv H. unfold parse_label_vector_description in H.
  rewrite Hv in H. simpl in H.
  apply bind_ok in H. destruct H as (items & Hitems & H).
  apply bind_ok in H. destruct H as (lv & Hloop & H).
  destruct (total_length lv =? 0)%nat eqn:Hlen; [discriminate H |].
  injection H as <-. exists items, lv.
  apply Nat.eqb_neq in Hlen. repeat split; assumption.
Qed.

Lemma parse_ok_structured (x : pyval) (columns : option (list string))
      (k : kwds) (y : pyval) :
  parse_label_vector_description x columns k = OK y -> structured_b y = true.
Proof.
  intros H. destruct (structured_b x) eqn:Hx.
  - unfold parse_label_vector_description in H.
    rewrite validator_spec, Hx in H. simpl in H. injection H as <-. exact Hx.
  - destruct (parse_path x columns k y) as (items & lv & _ & _ & Hlen & ->).
    + rewrite validator_spec, Hx. reflexivity.
    + exact H.
    + apply encoded_structured, Hlen.
Qed.

Lemma parse_fast_path (x : pyval) (columns : option (list string)) (k : kwds) :
  _is_structured_label_vector x = OK true ->
  parse_label_vector_description x columns k = OK x.
Proof.
  intros H. unfold parse_label_vector_description. rewrite H. reflexivity.
Qed.

(** C5: a vector the parser returned is returned unchanged when it is
    parsed again, whatever the columns and operators of the second call;
    and a description the validator accepts is returned as it is. *)
Theorem parse_idempotent (x : pyval) (columns : option (list string))
        (k : kwds) (y : pyval) :
  parse_label_vector_description x columns k = OK y ->
  (forall columns' k', parse_label_vector_description y columns' k' = OK y)
  /\ (_is_structured_label_vector x = OK true -> y = x).
Proof.
  intros H. split.
  - intros columns' k'. apply parse_fast_path.
    rewrite validator_spec. f_equal. apply (parse_ok_structured x columns k y H).
  - intros Hx. rewrite (parse_fast_path x columns k Hx) in H.
    injection H as <-. reflexivity.
Qed.

Lemma parse_idempotent_witness :
  parse_label_vector_description
    (PList [PList [PTuple [PStr "logg"; PInt 1];
                   PTuple [PStr "Teff"; PFloat 3%float]]])
    (Some ["Teff"; "logg"]) default_kwds
  = OK (PList [PList [PTuple [PStr "logg"; PInt 1];
                      PTuple [PStr "Teff"; PFloat 3%float]]]).
Proof.
  apply (proj1 (parse_idempotent (PStr "logg*Teff^3") None default_kwds _
                                 ltac:(vm_compute; reflexivity))).
Defined.

(** ** The loop of the parser *)

Section ParserLoop.

Variable columns : option (list string).
Variable k : kwds.

Lemma parse_item_retained (item : string) (valid_terms : ordered_dict) :
  parse_item columns k item = OK valid_terms ->
  Forall (fun lo => ne_zero (snd lo) = true /\ isfinite (snd lo) = true)
         valid_terms.
Proof.
  unfold parse_item. intros H.
  apply bind_ok in H. destruct H as (term & _ & H).
  destruct (all_finite (valid_terms_of term)) eqn:Hfin; simpl in H;
    [| discriminate H].
  injection H as <-. apply Forall_forall. intros lo Hin. split.
  - unfold valid_terms_of in Hin. apply filter_In in Hin. apply Hin.
  - unfold all_finite in Hfin. rewrite forallb_forall in Hfin.
    apply Hfin, Hin.
Qed.

Lemma parse_loop_keeps (P : ordered_dict -> Prop) :
  (forall item vt, parse_item columns k item = OK vt -> vt <> [] -> P vt) ->
  forall items acc label_vector,
    for_each items acc (parse_step columns k) = OK label_vector ->
    Forall P acc -> Forall P label_vector.
Proof.
  intros HP items. induction items as [| item items IH]; simpl; intros acc lv H Hacc.
  - injection H as <-. exact Hacc.
  - apply bind_ok in H. destruct H as (acc' & Hstep & Hrest).
    apply (IH acc' lv Hrest).
    unfold parse_step in Hstep. apply bind_ok in Hstep.
    destruct Hstep as (vt & Hitem & Hacc'). injection Hacc' as <-.
    destruct vt as [| lo vt]; simpl; [exact Hacc |].
    apply Forall_app. split; [exact Hacc |].
    constructor; [| constructor]. apply (HP item); [exact Hitem | discriminate].
Qed.

Lemma parse_loop_finite :
  forall items dicts,
    map_result (term_dict columns k) items = OK dicts ->
    (forall d, In d dicts -> all_finite (valid_terms_of d) = true) ->
    forall acc,
      for_each items acc (parse_step columns k)
      = OK (acc ++ filter (fun vt => (0 <? List.length vt)%nat)
                          (map valid_terms_of dicts)).
Proof.
  induction items as [| item items IH]; simpl; intros dicts Hd Hfin acc.
  - injection Hd as <-. simpl. rewrite app_nil_r. reflexivity.
  - apply bind_ok in Hd. destruct Hd as (d & Hitem & Hd).
    apply bind_ok in Hd. destruct Hd as (ds & Hrest & Hd). injection Hd as <-.
    unfold parse_step at 1. unfold parse_item. rewrite Hitem. simpl.
    rewrite (Hfin d (or_introl eq_refl)). simpl.
    rewrite (IH ds Hrest (fun d' H' => Hfin d' (or_intror H'))).
    destruct (0 <? List.length (valid_terms_of d))%nat; simpl.
    + rewrite <- app_assoc. reflexivity.
    + reflexivity.
Qed.

Lemma parse_loop_non_finite :
  forall items dicts,
    map_result (term_dict columns k) items = OK dicts ->
    (exists d, In d dicts /\ all_finite (valid_terms_of d) = false) ->
    forall acc,
      for_each items acc (parse_step columns k)
      = Err (ValueError "non-finite power provided").
Proof.
  induction items as [| item items IH]; simpl; intros dicts Hd Hbad acc.
  - injection Hd as <-. destruct Hbad as (d & [] & _).
  - apply bind_ok in Hd. destruct Hd as (d & Hitem & Hd).
    apply bind_ok in Hd. destruct Hd as (ds & Hrest & Hd). injection Hd as <-.
    unfold parse_step at 1. unfold parse_item. rewrite Hitem. simpl.
    destruct (all_finite (valid_terms_of d)) eqn:Hfin; simpl.
    + apply (IH ds Hrest). destruct Hbad as (d' & [<- | Hin] & Hd').
      * rewrite Hfin in Hd'. discriminate Hd'.
      * exists d'. split; assumption.
    + reflexivity.
Qed.

End ParserLoop.

Lemma all_finite_false (valid_terms : ordered_dict) :
  all_finite valid_terms = false <->
  exists l o, In (l, o) valid_terms /\ isfinite o = false.
Proof.
  unfold all_finite. split.
  - intros H. induction valid_terms as [| [l o] vt IH]; simpl in H;
      [discriminate H |].
    apply andb_false_iff in H. destruct H as [H | H].
    + exists l, o. split; [left; reflexivity | exact H].
    + destruct (IH H) as (l' & o' & Hin & Ho').
      exists l', o'. split; [right; exact Hin | exact Ho'].
  - intros (l & o & Hin & Ho).
    destruct (forallb _ valid_terms) eqn:Hall; [| reflexivity].
    rewrite forallb_forall in Hall. specialize (Hall (l, o) Hin).
    simpl in Hall. rewrite Ho in Hall. discriminate Hall.
Qed.

Lemma total_length_filter (vts : list ordered_dict) :
  total_length (filter (fun vt => (0 <? List.length vt)%nat) vts)
  = total_length vts.
Proof.
  unfold total_length. induction vts as [| vt vts IH]; simpl; [reflexivity |].
  destruct vt as [| lo vt]; simpl; rewrite IH; reflexivity.
Qed.

Lemma total_length_zero (vts : list ordered_dict) :
  total_length vts = 0 <-> forall vt, In vt vts -> vt = [].
Proof.
  unfold total_length. induction vts as [| vt vts IH]; simpl.
  - split; [intros _ vt [] | reflexivity].
  - split.
    + intros H vt' [<- | Hin].
      * destruct vt; [reflexivity | simpl in H; lia].
      * apply IH; [lia | exact Hin].
    + intros H. rewrite (H vt (or_introl eq_refl)). simpl.
      apply IH. intros vt' Hin. apply H. right. exact Hin.
Qed.

(** C9: when the parser succeeds on a string, the vector it returns has
    no empty term, and every power in it is different from zero and
    finite. *)
Theorem parsed_string_invariant (s : string) (columns : option (list string))
        (k : kwds) (y : pyval) :
  parse_label_vector_description (PStr s) columns k = OK y ->
  exists label_vector,
    y = py_of_label_vector label_vector /\
    Forall (fun valid_terms =>
              valid_terms <> [] /\
              Forall (fun lo => ne_zero (snd lo) = true /\ isfinite (snd lo) = true)
                     valid_terms)
           label_vector.
Proof.
  intros H.
  destruct (parse_path (PStr s) columns k y eq_refl H)
    as (items & lv & _ & Hloop & _ & ->).
  exists lv. split; [reflexivity |].
  apply (parse_loop_keeps columns k) with (items := items) (acc := []).
  - intros item vt Hitem Hne. split; [exact Hne |].
    apply (parse_item_retained columns k item vt Hitem).
  - exact Hloop.
  - constructor.
Qed.

Lemma parsed_string_invariant_witness :
  exists label_vector,
    PList [PList [PTuple [PStr "Teff"; PFloat 4%float]];
           PList [PTuple [PStr "logg"; PInt 1]; PTuple [PStr "Teff"; PFloat 3%float]];
           PList [PTuple [PStr "feh"; PInt 1]];
           PList [PTuple [PStr "Teff"; PInt 1]]]
    = py_of_label_vector label_vector /\
    Forall (fun valid_terms =>
              valid_terms <> [] /\
              Forall (fun lo => ne_zero (snd lo) = true /\ isfinite (snd lo) = true)
                     valid_terms)
           label_vector.
Proof.
  apply (parsed_string_invariant "Teff^4 + logg*Teff^3 + feh + feh^0*Teff"
                                 None default_kwds).
  vm_compute. reflexivity.
Defined.

(** C7: for a description that is parsed (not structured already) and
    whose every factor reads, the parser raises "non-finite power provided"
    when a retained power of some term is not finite; when all retained
    powers are finite it raises "no valid terms provided" if no term keeps
    a factor, and otherwise returns the terms that kept one, a vector the
    validator accepts. *)
Theorem validation_errors (description : pyval)
        (columns : option (list string)) (k : kwds)
        (items : list string) (dicts : list ordered_dict) :
  _is_structured_label_vector description = OK false ->
  description_items description (sep k) = OK items ->
  map_result (term_dict columns k) items = OK dicts ->
  ((exists d l o, In d dicts /\ In (l, o) (valid_terms_of d) /\ isfinite o = false) ->
   parse_label_vector_description description columns k
   = Err (ValueError "non-finite power provided"))
  /\
  ((forall d l o, In d dicts -> In (l, o) (valid_terms_of d) -> isfinite o = true) ->
   ((forall d, In d dicts -> valid_terms_of d = []) ->
    parse_label_vector_description description columns k
    = Err (ValueError "no valid terms provided"))
   /\
   ((exists d, In d dicts /\ valid_terms_of d <> []) ->
    let label_vector :=
      filter (fun vt => (0 <? List.length vt)%nat) (map valid_terms_of dicts) in
    parse_label_vector_description description columns k
    = OK (py_of_label_vector label_vector)
    /\ _is_structured_label_vector (py_of_label_vector label_vector) = OK true)).
Proof.
  intros Hv Hitems Hdicts.
  unfold parse_label_vector_description. rewrite Hv, Hitems. simpl. split.
  - intros (d & l & o & Hd & Hlo & Ho).
    rewrite (parse_loop_non_finite columns k items dicts Hdicts); [reflexivity |].
    exists d. split; [exact Hd |]. apply all_finite_false.
    exists l, o. split; assumption.
  - intros Hfin.
    rewrite (parse_loop_finite columns k items dicts Hdicts).
    2:{ intros d Hd. destruct (all_finite (valid_terms_of d)) eqn:Hall;
          [reflexivity |].
        apply all_finite_false in Hall. destruct Hall as (l & o & Hin & Ho).
        rewrite (Hfin d l o Hd Hin) in Ho. discriminate Ho. }
    simpl. split.
    + intros Hempty.
      assert (Hz : total_length (filter (fun vt => (0 <? List.length vt)%nat)
                                        (map valid_terms_of dicts)) = 0).
      { rewrite total_length_filter. apply total_length_zero.
        intros vt Hvt. apply in_map_iff in Hvt. destruct Hvt as (d & <- & Hd).
        apply Hempty, Hd. }
      rewrite Hz. reflexivity.
    + intros (d & Hd & Hne).
      assert (Hnz : total_length (filter (fun vt => (0 <? List.length vt)%nat)
                                         (map valid_terms_of dicts)) <> 0).
      { rewrite total_length_filter. intros Hz.
        apply Hne. apply (proj1 (total_length_zero _) Hz).
        apply in_map. exact Hd. }
      destruct (Nat.eqb_spec
                  (total_length (filter (fun vt => (0 <? List.length vt)%nat)
                                        (map valid_terms_of dicts))) 0)
        as [Hz | _]; [contradiction |].
      split; [reflexivity |].
      rewrite validator_spec. f_equal. apply encoded_structured, Hnz.
Qed.

Lemma validation_errors_witness :
  parse_label_vector_description (PStr "Teff^inf + logg") None default_kwds
  = Err (ValueError "non-finite power provided")
  /\ parse_label_vector_description (PStr "Teff^0 + logg^1*logg^-1") None default_kwds
     = Err (ValueError "no valid terms provided")
  /\ parse_label_vector_description (PStr "Teff^0 + logg^2") None default_kwds
     = OK (PList [PList [PTuple [PStr "logg"; PFloat 2%float]]]).
Proof.
  split; [| split].
  - apply (proj1 (validation_errors
                    (PStr "Teff^inf + logg") None default_kwds
                    ["Teff^inf"; "logg"]
                    [[(LName "Teff", NFloat infinity)]; [(LName "logg", NInt 1)]]
                    eq_refl eq_refl eq_refl)).
    exists [(LName "Teff", NFloat infinity)], (LName "Teff"), (NFloat infinity).
    split; [left; reflexivity |]. split; [left; reflexivity | reflexivity].
  - apply (proj2 (validation_errors
                    (PStr "Teff^0 + logg^1*logg^-1") None default_kwds
                    ["Teff^0"; "logg^1*logg^-1"]
                    [[(LName "Teff", NFloat 0%float)]; [(LName "logg", NFloat 0%float)]]
                    eq_refl eq_refl eq_refl)).
    + intros d l o [<- | [<- | []]] [].
    + intros d [<- | [<- | []]]; reflexivity.
  - apply (proj2 (validation_errors
                    (PStr "Teff^0 + logg^2") None default_kwds
                    ["Teff^0"; "logg^2"]
                    [[(LName "Teff", NFloat 0%float)]; [(LName "logg", NFloat 2%float)]]
                    eq_refl eq_refl eq_refl)).
    + intros d l o [<- | [<- | []]]; simpl.
      * intros [].
      * intros [H | []]. injection H as _ <-. reflexivity.
    + exists [(LName "logg", NFloat 2%float)].
      split; [right; left; reflexivity | discriminate].
Defined.

(** ** The ordered dictionary *)

Lemma label_eqb_eq (a b : label) : label_eqb a b = true <-> a = b.
Proof.
  destruct a as [x | i], b as [y | j]; simpl; split; intros H;
    try discriminate H.
  - apply String.eqb_eq in H. subst. reflexivity.
  - injection H as ->. apply String.eqb_refl.
  - apply Nat.eqb_eq in H. subst. reflexivity.
  - injection H as ->. apply Nat.eqb_refl.
Qed.

Lemma label_eqb_refl (a : label) : label_eqb a a = true.
Proof. apply label_eqb_eq. reflexivity. Qed.

Lemma label_eqb_sym (a b : label) : label_eqb a b = label_eqb b a.
Proof.
  destruct (label_eqb a b) eqn:Hab, (label_eqb b a) eqn:Hba; try reflexivity.
  - apply label_eqb_eq in Hab. subst. rewrite label_eqb_refl in Hba. discriminate.
  - apply label_eqb_eq in Hba. subst. rewrite label_eqb_refl in Hab. discriminate.
Qed.

Lemma od_get_set_same (d : ordered_dict) (l : label) (v default : pynum) :
  od_get (od_set d l v) l default = v.
Proof.
  induction d as [| [k w] d IH]; simpl.
  - rewrite label_eqb_refl. reflexivity.
  - destruct (label_eqb k l) eqn:Hk; simpl; rewrite Hk; [reflexivity | exact IH].
Qed.

Lemma od_get_set_other (d : ordered_dict) (l l' : label) (v default : pynum) :
  label_eqb l l' = false ->
  od_get (od_set d l v) l' default = od_get d l' default.
Proof.
  intros Hne. induction d as [| [k w] d IH]; simpl.
  - rewrite Hne. reflexivity.
  - destruct (label_eqb k l) eqn:Hk; simpl.
    + apply label_eqb_eq in Hk. subst k. rewrite Hne. reflexivity.
    + destruct (label_eqb k l'); [reflexivity | exact IH].
Qed.

Lemma od_set_keys (d : ordered_dict) (l : label) (v : pynum) :
  map fst (od_set d l v)
  = if has_key d l then map fst d else map fst d ++ [l].
Proof.
  unfold has_key. induction d as [| [k w] d IH]; simpl.
  - reflexivity.
  - destruct (label_eqb k l) eqn:Hk; simpl; [reflexivity |].
    rewrite IH. destruct (existsb _ (map fst d)); reflexivity.
Qed.

Lemma has_key_in (d : ordered_dict) (l : label) :
  has_key d l = true <-> In l (map fst d).
Proof.
  unfold has_key. rewrite existsb_exists. split.
  - intros (k & Hin & Hk). apply label_eqb_eq in Hk. subst. exact Hin.
  - intros Hin. exists l. split; [exact Hin | apply label_eqb_refl].
Qed.

Lemma has_key_set (d : ordered_dict) (l x : label) (v : pynum) :
  has_key (od_set d l v) x = has_key d x || label_eqb l x.
Proof.
  unfold has_key. rewrite od_set_keys. fold (has_key d l).
  destruct (has_key d l) eqn:Hl.
  - destruct (label_eqb l x) eqn:Hx.
    + apply label_eqb_eq in Hx. subst x. fold (has_key d l).
      rewrite Hl. reflexivity.
    + rewrite orb_false_r. reflexivity.
  - rewrite existsb_app. simpl. rewrite orb_false_r. reflexivity.
Qed.

Lemma od_get_in (d : ordered_dict) (l : label) (o default : pynum) :
  NoDup (map fst d) -> In (l, o) d -> od_get d l default = o.
Proof.
  induction d as [| [k w] d IH]; simpl; intros Hnd Hin; [contradiction |].
  inversion Hnd as [| k' ks Hk Hnd']; subst.
  destruct Hin as [Heq | Hin].
  - injection Heq as -> ->. rewrite label_eqb_refl. reflexivity.
  - destruct (label_eqb k l) eqn:Hkl.
    + apply label_eqb_eq in Hkl. subst k. exfalso. apply Hk.
      apply in_map_iff. exists (l, o). split; [reflexivity | exact Hin].
    + apply IH; assumption.
Qed.

(** ** Collecting the factors of a term *)

Lemma collect_reads (columns : option (list string)) (pow : string) :
  forall descriptor acc term,
    for_each descriptor acc (collect_step columns pow) = OK term ->
    exists factors,
      map_result (read_factor columns pow) descriptor = OK factors /\
      for_each factors acc add_factor = OK term.
Proof.
  induction descriptor as [| f fs IH]; simpl; intros acc term H.
  - injection H as <-. exists []. split; reflexivity.
  - apply bind_ok in H. destruct H as (acc' & Hstep & Hrest).
    unfold collect_step in Hstep.
    apply bind_ok in Hstep. destruct Hstep as (l & Hl & Hstep).
    apply bind_ok in Hstep. destruct Hstep as (o & Ho & Hstep).
    destruct (IH acc' term Hrest) as (factors & Hread & Hagg).
    exists ((l, o) :: factors). unfold read_factor at 1.
    rewrite Hl, Ho. simpl. rewrite Hread. simpl. split; [reflexivity |].
    unfold add_factor at 1. simpl. rewrite Hstep. simpl. exact Hagg.
Qed.

Lemma filter_filter_and {A : Type} (p q : A -> bool) (xs : list A) :
  filter p (filter q xs) = filter (fun x => q x && p x) xs.
Proof.
  induction xs as [| x xs IH]; simpl; [reflexivity |].
  destruct (q x); simpl; [destruct (p x) |]; rewrite IH; reflexivity.
Qed.

Lemma add_factors_keys :
  forall factors acc term,
    for_each factors acc add_factor = OK term ->
    map fst term
    = map fst acc
        ++ filter (fun x => negb (has_key acc x)) (first_seen (map fst factors)).
Proof.
  induction factors as [| [l o] fs IH]; simpl; intros acc term H.
  - injection H as <-. rewrite app_nil_r. reflexivity.
  - apply bind_ok in H. destruct H as (acc' & Hstep & Hrest).
    unfold add_factor in Hstep. simpl in Hstep.
    apply bind_ok in Hstep. destruct Hstep as (v & _ & Hacc').
    injection Hacc' as <-.
    rewrite (IH _ _ Hrest), od_set_keys.
    assert (Hf : forall xs,
               filter (fun x => negb (has_key (od_set acc l v) x)) xs
               = filter (fun x => negb (has_key acc x))
                        (filter (fun x => negb (label_eqb x l)) xs)).
    { intros xs. rewrite filter_filter_and. apply filter_ext. intros x.
      rewrite has_key_set, (label_eqb_sym l x).
      destruct (label_eqb x l), (has_key acc x); reflexivity. }
    rewrite Hf. destruct (has_key acc l); simpl.
    + reflexivity.
    + rewrite <- app_assoc. reflexivity.
Qed.

Lemma add_factors_values :
  forall factors acc term,
    for_each factors acc add_factor = OK term ->
    forall l,
      for_each (powers_of l factors) (od_get acc l (NInt 0)) py_add
      = OK (od_get term l (NInt 0)).
Proof.
  induction factors as [| [l0 o0] fs IH]; simpl; intros acc term H l.
  - injection H as <-. reflexivity.
  - apply bind_ok in H. destruct H as (acc' & Hstep & Hrest).
    unfold add_factor in Hstep. simpl in Hstep.
    apply bind_ok in Hstep. destruct Hstep as (v & Hv & Hacc').
    injection Hacc' as <-.
    specialize (IH _ _ Hrest l). unfold powers_of in *. simpl.
    destruct (label_eqb l0 l) eqn:Hl; simpl.
    + apply label_eqb_eq in Hl. subst l0. rewrite Hv. simpl.
      rewrite od_get_set_same in IH. exact IH.
    + rewrite (od_get_set_other _ _ _ _ _ Hl) in IH. exact IH.
Qed.

Lemma add_factors_nodup :
  forall factors acc term,
    for_each factors acc add_factor = OK term ->
    NoDup (map fst acc) -> NoDup (map fst term).
Proof.
  induction factors as [| [l o] fs IH]; simpl; intros acc term H Hnd.
  - injection H as <-. exact Hnd.
  - apply bind_ok in H. destruct H as (acc' & Hstep & Hrest).
    unfold add_factor in Hstep. simpl in Hstep.
    apply bind_ok in Hstep. destruct Hstep as (v & _ & Hacc').
    injection Hacc' as <-. apply (IH _ _ Hrest).
    rewrite od_set_keys. destruct (has_key acc l) eqn:Hl; [exact Hnd |].
    apply NoDup_app; [exact Hnd | constructor; [intros [] | constructor] |].
    intros x Hx [<- | []].
    apply has_key_in in Hx. rewrite Hx in Hl. discriminate Hl.
Qed.

Lemma kept_keys (term : ordered_dict) :
  NoDup (map fst term) ->
  map fst (valid_terms_of term)
  = filter (fun l => ne_zero (od_get term l (NInt 0))) (map fst term).
Proof.
  intros Hnd. unfold valid_terms_of.
  assert (H : forall d,
             (forall lo, In lo d -> od_get term (fst lo) (NInt 0) = snd lo) ->
             map fst (filter (fun lo => ne_zero (snd lo)) d)
             = filter (fun l => ne_zero (od_get term l (NInt 0))) (map fst d)).
  { induction d as [| lo d IH]; intros Hd; [reflexivity |].
    simpl. rewrite (Hd lo (or_introl eq_refl)).
    destruct (ne_zero (snd lo)); simpl;
      rewrite (IH (fun lo' H' => Hd lo' (or_intror H'))); reflexivity. }
  apply H. intros [l o] Hin. apply (od_get_in term l o (NInt 0) Hnd Hin).
Qed.

(** C6: the dictionary of a term has the labels of its factors in the
    order they were first seen, each with the sum of the powers of the
    factors that carry it; the factors kept are those whose sum is not
    zero, in that same order.  So "feh^0*feh^2" gives the single factor
    (feh, 2) and "feh^0*Teff" gives (Teff, 1) alone; "Teff^1*Teff^2" gives
    (Teff, 3), a bare factor counts as the integer 1, and powers that
    cancel drop the label. *)
Theorem repeated_factors_summed :
  (forall columns pow descriptor term,
      collect_term columns pow descriptor = OK term ->
      exists factors,
        map_result (read_factor columns pow) descriptor = OK factors /\
        map fst term = first_seen (map fst factors) /\
        Forall (fun lo => sum_powers (powers_of (fst lo) factors) = OK (snd lo))
               term /\
        (forall lo, In lo (valid_terms_of term)
                    <-> In lo term /\ ne_zero (snd lo) = true) /\
        map fst (valid_terms_of term)
        = filter (fun l => ne_zero (od_get term l (NInt 0)))
                 (first_seen (map fst factors)))
  /\ parse_label_vector_description (PStr "feh^0*feh^2") None default_kwds
     = OK (PList [PList [PTuple [PStr "feh"; PFloat 2%float]]])
  /\ parse_label_vector_description (PStr "feh^0*Teff") None default_kwds
     = OK (PList [PList [PTuple [PStr "Teff"; PInt 1]]])
  /\ parse_label_vector_description (PStr "Teff^1*Teff^2") None default_kwds
     = OK (PList [PList [PTuple [PStr "Teff"; PFloat 3%float]]])
  /\ parse_label_vector_description (PStr "Teff*Teff^0.5*Teff") None default_kwds
     = OK (PList [PList [PTuple [PStr "Teff"; PFloat 2.5%float]]])
  /\ parse_label_vector_description (PStr "logg*logg*logg") None default_kwds
     = OK (PList [PList [PTuple [PStr "logg"; PInt 3]]])
  /\ parse_label_vector_description
       (PStr "feh^2*Teff*feh^1.5*logg^0") None default_kwds
     = OK (PList [PList [PTuple [PStr "feh"; PFloat 3.5%float];
                         PTuple [PStr "Teff"; PInt 1]]])
  /\ parse_label_vector_description
       (PStr "feh^1.5*Teff^3*feh^-1.5*logg") None default_kwds
     = OK (PList [PList [PTuple [PStr "Teff"; PFloat 3%float];
                         PTuple [PStr "logg"; PInt 1]]]).
Proof.
  split; [| repeat split; vm_compute; reflexivity].
  intros columns pow descriptor term H. unfold collect_term in H.
  destruct (collect_reads columns pow descriptor [] term H)
    as (factors & Hread & Hagg).
  assert (Hkeys : map fst term = first_seen (map fst factors)).
  { rewrite (add_factors_keys factors [] term Hagg). simpl.
    clear. induction (first_seen (map fst factors)) as [| x xs IH]; simpl;
      [reflexivity | f_equal; exact IH]. }
  assert (Hnd : NoDup (map fst term)).
  { apply (add_factors_nodup factors [] term Hagg). constructor. }
  exists factors. split; [exact Hread |]. split; [exact Hkeys |].
  split; [| split].
  - apply Forall_forall. intros [l o] Hin. simpl. unfold sum_powers.
    pose proof (add_factors_values factors [] term Hagg l) as Hv.
    simpl in Hv. rewrite Hv. f_equal.
    apply od_get_in; [exact Hnd | exact Hin].
  - intros lo. unfold valid_terms_of. apply filter_In.
  - rewrite (kept_keys term Hnd), Hkeys. reflexivity.
Qed.

Lemma repeated_factors_summed_witness :
  exists factors,
    map_result (read_factor None "^") ["feh^1"; "Teff"; "feh^2"; "logg^0"]
    = OK factors /\
    map fst [(LName "feh", NFloat 3%float); (LName "Teff", NInt 1);
             (LName "logg", NFloat 0%float)]
    = first_seen (map fst factors) /\
    Forall (fun lo => sum_powers (powers_of (fst lo) factors) = OK (snd lo))
           [(LName "feh", NFloat 3%float); (LName "Teff", NInt 1);
            (LName "logg", NFloat 0%float)] /\
    (forall lo,
        In lo (valid_terms_of [(LName "feh", NFloat 3%float);
                               (LName "Teff", NInt 1);
                               (LName "logg", NFloat 0%float)])
        <-> In lo [(LName "feh", NFloat 3%float); (LName "Teff", NInt 1);
                   (LName "logg", NFloat 0%float)]
            /\ ne_zero (snd lo) = true) /\
    map fst (valid_terms_of [(LName "feh", NFloat 3%float);
                             (LName "Teff", NInt 1);
                             (LName "logg", NFloat 0%float)])
    = filter (fun l => ne_zero (od_get [(LName "feh", NFloat 3%float);
                                        (LName "Teff", NInt 1);
                                        (LName "logg", NFloat 0%float)]
                                       l (NInt 0)))
             (first_seen (map fst factors)).
Proof.
  apply (proj1 repeated_factors_summed None "^"
               ["feh^1"; "Teff"; "feh^2"; "logg^0"]).
  vm_compute. reflexivity.
Defined.

(** ** Resolving labels against the columns *)

Lemma index_of_some (x : string) (columns : list string) (i : nat) :
  index_of x columns = Some i ->
  nth_error columns i = Some x /\
  forall j, j < i -> nth_error columns j <> Some x.
Proof.
  revert i. induction columns as [| c rest IH]; simpl; intros i H;
    [discriminate H |].
  destruct (String.eqb c x) eqn:Hc.
  - injection H as <-. apply String.eqb_eq in Hc. subst c.
    split; [reflexivity | intros j Hj; lia].
  - destruct (index_of x rest) as [i' |]; [| discriminate H].
    injection H as <-. destruct (IH i' eq_refl) as [Hnth Hfirst].
    split; [exact Hnth |].
    intros [| j] Hj; simpl.
    + intros Heq. injection Heq as ->. rewrite String.eqb_refl in Hc.
      discriminate Hc.
    + apply Hfirst. lia.
Qed.

Lemma index_of_none (x : string) (columns : list string) :
  index_of x columns = None <-> ~ In x columns.
Proof.
  induction columns as [| c rest IH]; simpl.
  - split; [intros _ [] | reflexivity].
  - destruct (String.eqb c x) eqn:Hc.
    + apply String.eqb_eq in Hc. split; [discriminate |].
      intros H. exfalso. apply H. left. exact Hc.
    + apply String.eqb_neq in Hc.
      destruct (index_of x rest) as [i |].
      * split; [discriminate |]. intros H. exfalso.
        assert (Hin : In x rest).
        { destruct (in_dec string_dec x rest) as [Hin | Hout]; [exact Hin |].
          apply IH in Hout. discriminate Hout. }
        apply H. right. exact Hin.
      * split; [| reflexivity]. intros _ [Heq | Hin]; [contradiction |].
        apply (proj1 IH eq_refl Hin).
Qed.

Lemma for_each_member_fails {A S : Type} (body : S -> A -> result S) (x : A) :
  (forall acc, exists e, body acc x = Err e) ->
  forall xs, In x xs -> forall acc, exists e, for_each xs acc body = Err e.
Proof.
  intros Hx xs. induction xs as [| y ys IH]; simpl; intros Hin acc;
    [contradiction |].
  destruct (body acc y) as [acc' | e] eqn:Hy; simpl.
  - destruct Hin as [-> | Hin].
    + destruct (Hx acc) as (e & He). rewrite He in Hy. discriminate Hy.
    + apply (IH Hin).
  - exists e. reflexivity.
Qed.

Lemma unresolved_label_fails (description : pyval) (columns : list string)
      (k : kwds) (items : list string) (item : string)
      (descriptor : list string) (factor : string) (e : exn) :
  _is_structured_label_vector description = OK false ->
  description_items description (sep k) = OK items ->
  In item items ->
  PyStr.split item (mul k) = OK descriptor ->
  In factor descriptor ->
  get_label (Some columns) (pow k) factor = Err e ->
  exists e', parse_label_vector_description description (Some columns) k = Err e'.
Proof.
  intros Hv Hitems Hitem Hsplit Hfactor Hlabel.
  unfold parse_label_vector_description. rewrite Hv, Hitems. simpl.
  destruct (for_each_member_fails (parse_step (Some columns) k) item) with
    (xs := items) (acc := @nil ordered_dict) as (e' & He').
  - intros acc. unfold parse_step, parse_item, term_dict, collect_term.
    rewrite Hsplit. simpl.
    destruct (for_each_member_fails (S := list (label * pynum))
                (collect_step (Some columns) (pow k)) factor)
      with (xs := descriptor) (acc := @nil (label * pynum)) as (e1 & He1).
    + intros term. unfold collect_step. rewrite Hlabel. simpl.
      exists e. reflexivity.
    + exact Hfactor.
    + rewrite He1. simpl. exists e1. reflexivity.
  - exact Hitem.
  - rewrite He'. simpl. exists e'. reflexivity.
Qed.

(** ** Descriptions of whitespace *)

Lemma space_not_plus (c : ascii) :
  PyStr.is_space c = true -> Ascii.eqb "+" c = false.
Proof.
  intros H. destruct (Ascii.eqb_spec "+" c) as [<- | _]; [| reflexivity].
  discriminate H.
Qed.

Lemma all_space_rev_onto (s acc : string) :
  all_space acc = true -> all_space s = true ->
  all_space (PyStr.rev_onto acc s) = true.
Proof.
  revert acc. induction s as [| c s IH]; simpl; intros acc Hacc Hs.
  - exact Hacc.
  - apply andb_true_iff in Hs. destruct Hs as [Hc Hs].
    apply IH; [simpl; rewrite Hc; exact Hacc | exact Hs].
Qed.

Lemma split_scan_all_space (s cur : string) :
  all_space s = true ->
  PyStr.split_scan "+" s cur 0
  = [PyStr.rev_onto EmptyString (PyStr.rev_onto cur s)].
Proof.
  revert cur. induction s as [| c s IH]; intros cur Hs.
  - reflexivity.
  - simpl in Hs. apply andb_true_iff in Hs. destruct Hs as [Hc Hs].
    change (PyStr.split_scan "+" (String c s) cur 0)
      with (if Ascii.eqb "+" c && true
            then PyStr.rev_onto EmptyString cur
                   :: PyStr.split_scan "+" s EmptyString 0
            else PyStr.split_scan "+" s (String c cur) 0).
    rewrite (space_not_plus c Hc). apply IH, Hs.
Qed.

Lemma strip_all_space (s : string) :
  all_space s = true -> PyStr.strip s = EmptyString.
Proof.
  intros Hs. unfold PyStr.strip.
  assert (Hl : PyStr.lstrip s = EmptyString).
  { induction s as [| c s IH]; simpl; [reflexivity |].
    simpl in Hs. apply andb_true_iff in Hs. destruct Hs as [Hc Hs].
    rewrite Hc. apply IH, Hs. }
  rewrite Hl. reflexivity.
Qed.

(** C10: an empty or whitespace-only string, parsed without columns, is
    not rejected: its one factor has the empty label and the default
    power 1, which is kept, so the result is [[("", 1)]]. *)
Theorem whitespace_description_parses (s : string) :
  all_space s = true ->
  parse_label_vector_description (PStr s) None default_kwds
  = OK (PList [PList [PTuple [PStr ""; PInt 1]]]).
Proof.
  intros Hs.
  assert (Hitems : description_items (PStr s) (sep default_kwds) = OK [""]).
  { unfold description_items, PyStr.split. simpl.
    rewrite (split_scan_all_space s EmptyString Hs). simpl.
    rewrite strip_all_space; [reflexivity |].
    apply all_space_rev_onto; [reflexivity |].
    apply all_space_rev_onto; [reflexivity | exact Hs]. }
  unfold parse_label_vector_description.
  change (_is_structured_label_vector (PStr s)) with (@OK bool false).
  unfold bind at 1. cbv iota. rewrite Hitems. reflexivity.
Qed.

Lemma whitespace_description_parses_witness :
  parse_label_vector_description (PStr "   ") None default_kwds
  = OK (PList [PList [PTuple [PStr ""; PInt 1]]])
  /\ parse_label_vector_description (PStr "") None default_kwds
     = OK (PList [PList [PTuple [PStr ""; PInt 1]]]).
Proof.
  split.
  - apply (whitespace_description_parses "   "). reflexivity.
  - apply (whitespace_description_parses ""). reflexivity.
Defined.

(** ** The evaluator *)

Lemma a_is_unbound : name_bound get_label_vector_locals module_globals "a" = false.
Proof. reflexivity. Qed.

(** One step of a run whose exceptions all end it: the step either raised,
    which settles the goal, or gave a value to go on with. *)
Tactic Notation "step" constr(r) "as" simple_intropattern(p) :=
  destruct r as [p | ?]; cbn [bind]; [| eexists; reflexivity].

Lemma factor_step_fails (np : numpy) (scaled_labels column : ndarray)
      (factor : pyval) :
  exists e, factor_step np module_globals scaled_labels column factor = Err e.
Proof.
  unfold factor_step.
  step (unpack2 factor) as [index order].
  step (getitem np scaled_labels index) as x.
  step (power np x order) as y.
  step (multiply np column y) as c.
  unfold load_name. rewrite a_is_unbound. eexists; reflexivity.
Qed.

Lemma term_column_fails (np : numpy) (scaled_labels : ndarray) (term : pyval)
      (factor : pyval) (factors : list pyval) :
  py_iter term = OK (factor :: factors) ->
  exists e, term_column np module_globals scaled_labels term = Err e.
Proof.
  intros Hiter. unfold term_column. rewrite Hiter. simpl.
  destruct (factor_step_fails np scaled_labels
              {| shape := []; data := [PrimFloat.one] |} factor) as (e & He).
  rewrite He. simpl. exists e. reflexivity.
Qed.

Lemma structured_has_factor (y : pyval) :
  structured_b y = true ->
  exists terms term factor factors,
    py_iter y = OK terms /\ In term terms /\
    py_iter term = OK (factor :: factors).
Proof.
  unfold structured_b. destruct (sequence_items y) as [ts |] eqn:Hy;
    [| discriminate].
  intros H. apply andb_true_iff in H. destruct H as [_ Hsum].
  apply negb_true_iff, Nat.eqb_neq in Hsum.
  assert (Hex : exists t, In t ts /\ term_length t <> 0).
  { clear Hy. induction ts as [| t ts IH]; simpl in Hsum; [contradiction |].
    destruct (Nat.eq_dec (term_length t) 0) as [Hz | Hnz].
    - rewrite Hz in Hsum. destruct (IH Hsum) as (t' & Hin & Ht').
      exists t'. split; [right; exact Hin | exact Ht'].
    - exists t. split; [left; reflexivity | exact Hnz]. }
  destruct Hex as (t & Hin & Hlen). exists ts, t.
  unfold term_length in Hlen.
  destruct (sequence_items t) as [[| f fs] |] eqn:Ht; try contradiction.
  exists f, fs. split; [| split].
  - destruct y; try discriminate Hy; injection Hy as ->; reflexivity.
  - exact Hin.
  - destruct t; try discriminate Ht; injection Ht as ->; reflexivity.
Qed.

Lemma structured_terms_fail (np : numpy) (self : PolynomialVectorizer)
      (values : ndarray) :
  structured_b (_parsed_terms self) = true ->
  exists e, get_label_vector np self values = Err e.
Proof.
  intros Hparse.
  destruct (structured_has_factor (_parsed_terms self) Hparse)
    as (ts & t & f & fs & Hiter & Hin & Ht).
  unfold get_label_vector, get_label_vector_in.
  step (if (ndim values =? 1)%nat then OK (reshape_row values)
        else if (2 <? ndim values)%nat
             then Err (ValueError "labels must be a 1-d or 2-d array")
             else OK values) as arr.
  step (match nth_error (shape arr) 0 with
        | Some n => OK n
        | None => Err (IndexError "tuple index out of range")
        end) as n.
  step (broadcast sub arr (fiducials self)) as shifted.
  step (broadcast div shifted (scales self)) as scaled.
  rewrite Hiter. cbn [bind].
  destruct (for_each_member_fails (column_step np module_globals scaled) t)
    with (xs := ts) (acc := [ones n]) as (e & He).
  - intros acc. unfold column_step.
    destruct (term_column_fails np scaled t f fs Ht) as (e & He).
    rewrite He. exists e. reflexivity.
  - exact Hin.
  - rewrite He. exists e. reflexivity.
Qed.

(** C3: whatever vectorizer has been constructed and whatever array of
    labels is given, [get_label_vector] raises and returns no matrix: the
    terms the parser stored hold a factor, and the loop over the factors
    of a term raises at its first turn. *)
Theorem evaluation_always_fails (np : numpy) (names : list string)
        (offsets divisors : list float) (description : pyval)
        (self : PolynomialVectorizer) (values : ndarray) :
  __init__ names offsets divisors description = OK self ->
  exists e, get_label_vector np self values = Err e.
Proof.
  intros Hinit. unfold __init__ in Hinit.
  apply bind_ok in Hinit. destruct Hinit as (parsed & Hparse & Hself).
  injection Hself as <-.
  apply structured_terms_fail. cbn [_parsed_terms].
  apply (parse_ok_structured _ _ _ _ Hparse).
Qed.

Lemma evaluation_always_fails_witness :
  exists e,
    get_label_vector whole_numpy
      {| labels := ["Teff"; "logg"];
         fiducials := [0%float; 0%float];
         scales := [1%float; 1%float];
         terms := PStr "Teff + logg";
         _parsed_terms := PList [PList [PTuple [PInt 0; PInt 1]];
                                 PList [PTuple [PInt 1; PInt 1]]] |}
      {| shape := [2; 2]; data := [5777%float; 4.5%float; 4000%float; 1.5%float] |}
    = Err e.
Proof.
  apply (evaluation_always_fails whole_numpy ["Teff"; "logg"]
           [0%float; 0%float] [1%float; 1%float] (PStr "Teff + logg")).
  vm_compute. reflexivity.
Defined.

(** C4 on the code: for two labels, fiducials 0, scales 1 and a single row
    of two values, the evaluator raises at the first factor of the first
    term ([NameError] on the name [a] of line 79, once the power and the
    product before it are computed) and returns no matrix. *)
Theorem single_row_evaluation_raises (np : numpy) :
  __init__ ["Teff"; "logg"] [0%float; 0%float] [1%float; 1%float]
           (PStr "Teff + logg^2")
  = OK two_label_vectorizer
  /\ (exists e, get_label_vector np two_label_vectorizer one_row = Err e)
  /\ (forall y c,
         power np one_row (PInt 1) = OK y ->
         multiply np {| shape := []; data := [1%float] |} y = OK c ->
         get_label_vector np two_label_vectorizer one_row
         = Err (NameError "a"))
  /\ get_label_vector whole_numpy two_label_vectorizer one_row
     = Err (NameError "a").
Proof.
  split; [vm_compute; reflexivity |].
  split; [apply structured_terms_fail; reflexivity |].
  split; [| vm_compute; reflexivity].
  intros y c Hy Hc. vm_compute in Hy, Hc. vm_compute.
  rewrite Hy, Hc. reflexivity.
Qed.

(** ** The builder *)

Lemma combinations_with_replacement_unbound :
  name_bound build_label_vector_locals module_globals
             "combinations_with_replacement" = false.
Proof. reflexivity. Qed.

(** Whenever the loop of line 239 runs at all, the builder raises. *)
Lemma build_label_vector_raises (labels : list string)
      (order cross_term_order : Z) (k : kwds) :
  (1 <= Z.max order
              (1 + (if (0 >? cross_term_order)%Z then order - 1
                    else cross_term_order)))%Z ->
  build_label_vector labels order cross_term_order k
  = Err (NameError "combinations_with_replacement").
Proof.
  intros Hrange. unfold build_label_vector, build_label_vector_in.
  destruct (Z.to_nat (Z.max order
                        (1 + (if (0 >? cross_term_order)%Z then order - 1
                              else cross_term_order)))) as [| n] eqn:Hn;
    [lia |].
  cbn [seq for_each bind]. unfold load_name.
  rewrite combinations_with_replacement_unbound. reflexivity.
Qed.

(** C1 on the code: for Teff and logg, order 2 and cross-term order 1 the
    builder raises [NameError], the module importing no
    [combinations_with_replacement]; were the name bound to the function
    of [itertools], the string built would parse, over the same columns,
    to the five terms Teff, logg, Teff^2, Teff*logg and logg^2. *)
Theorem builder_round_trip_raises :
  build_label_vector ["Teff"; "logg"] 2 1 default_kwds
  = Err (NameError "combinations_with_replacement")
  /\ build_label_vector_in
       ("combinations_with_replacement" :: module_globals)
       ["Teff"; "logg"] 2 1 default_kwds
     = OK "Teff + logg + Teff^2 + Teff*logg + logg^2"
  /\ parse_label_vector_description
       (PStr "Teff + logg + Teff^2 + Teff*logg + logg^2")
       (Some ["Teff"; "logg"]) default_kwds
     = OK (PList [PList [PTuple [PInt 0; PInt 1]];
                  PList [PTuple [PInt 1; PInt 1]];
                  PList [PTuple [PInt 0; PFloat 2%float]];
                  PList [PTuple [PInt 0; PInt 1]; PTuple [PInt 1; PInt 1]];
                  PList [PTuple [PInt 1; PFloat 2%float]]]).
Proof.
  split; [apply build_label_vector_raises; vm_compute; discriminate |].
  split; vm_compute; reflexivity.
Qed.

(** * Further properties of the parser, the builder and the evaluator *)

(** ** Splitting on an operator of one character *)

Lemma append_empty_r (s : string) : (s ++ EmptyString)%string = s.
Proof.
  induction s as [| c s IH]; simpl; [reflexivity | rewrite IH; reflexivity].
Qed.

Lemma append_assoc (a b c : string) :
  ((a ++ b) ++ c)%string = (a ++ b ++ c)%string.
Proof.
  induction a as [| x a IH]; simpl; [reflexivity | rewrite IH; reflexivity].
Qed.

Lemma rev_onto_twice (s a b : string) :
  PyStr.rev_onto a (PyStr.rev_onto b s) = PyStr.rev_onto (s ++ a)%string b.
Proof.
  revert a b. induction s as [| c s IH]; simpl; intros a b.
  - reflexivity.
  - rewrite IH. reflexivity.
Qed.

Lemma rev_onto_back (s : string) :
  PyStr.rev_onto EmptyString (PyStr.rev_onto EmptyString s) = s.
Proof. rewrite rev_onto_twice. simpl. apply append_empty_r. Qed.

Lemma split_scan_step (c a : ascii) (s cur : string) :
  PyStr.split_scan (one_char c) (String a s) cur 0
  = if Ascii.eqb c a
    then PyStr.rev_onto EmptyString cur
           :: PyStr.split_scan (one_char c) s EmptyString 0
    else PyStr.split_scan (one_char c) s (String a cur) 0.
Proof.
  unfold one_char. simpl. rewrite andb_true_r. reflexivity.
Qed.

Lemma contains_one_char (c : ascii) (s : string) :
  PyStr.contains (one_char c) s = has_char c s.
Proof.
  induction s as [| a s IH].
  - reflexivity.
  - unfold one_char in *. simpl. rewrite andb_true_r, IH. reflexivity.
Qed.

(** No separator in sight: the whole string is the only field. *)
Lemma split_scan_absent (c : ascii) (s cur : string) :
  has_char c s = false ->
  PyStr.split_scan (one_char c) s cur 0
  = [PyStr.rev_onto EmptyString (PyStr.rev_onto cur s)].
Proof.
  revert cur. induction s as [| a s IH]; intros cur Hs.
  - reflexivity.
  - simpl in Hs. apply orb_false_iff in Hs. destruct Hs as [Ha Hs].
    rewrite split_scan_step, Ha. apply IH, Hs.
Qed.

Lemma split_absent (c : ascii) (s : string) :
  has_char c s = false -> PyStr.split s (one_char c) = OK [s].
Proof.
  intros Hs. unfold PyStr.split, one_char.
  fold (one_char c). rewrite (split_scan_absent c s EmptyString Hs).
  rewrite rev_onto_back. reflexivity.
Qed.

(** The fields of two strings joined by the separator are the fields of
    the first followed by the fields of the second. *)
Lemma split_scan_joined (c : ascii) (s1 s2 cur : string) :
  PyStr.split_scan (one_char c) (s1 ++ String c s2)%string cur 0
  = PyStr.split_scan (one_char c) s1 cur 0
      ++ PyStr.split_scan (one_char c) s2 EmptyString 0.
Proof.
  revert cur. induction s1 as [| a s1 IH]; intros cur.
  - change (EmptyString ++ String c s2)%string with (String c s2).
    rewrite split_scan_step, Ascii.eqb_refl. reflexivity.
  - change (String a s1 ++ String c s2)%string
      with (String a (s1 ++ String c s2)%string).
    rewrite !split_scan_step. destruct (Ascii.eqb c a).
    + rewrite IH. reflexivity.
    + apply IH.
Qed.

Lemma split_scan_nonempty (sep s cur : string) (skip : nat) :
  exists field fields, PyStr.split_scan sep s cur skip = field :: fields.
Proof.
  revert cur skip. induction s as [| a s IH]; intros cur skip.
  - simpl. eexists. eexists. reflexivity.
  - simpl. destruct skip as [| n]; [| apply IH].
    destruct (PyStr.startswith sep (String a s)); [| apply IH].
    eexists. eexists. reflexivity.
Qed.

Lemma split_scan_join (c : ascii) (items : list string) :
  items <> [] ->
  Forall (fun item => has_char c item = false) items ->
  PyStr.split_scan (one_char c) (PyStr.join (one_char c) items) EmptyString 0
  = items.
Proof.
  induction items as [| x [| y rest] IH]; intros Hne Hall.
  - contradiction.
  - simpl. inversion Hall as [| ? ? Hx _]; subst.
    rewrite (split_scan_absent c x EmptyString Hx), rev_onto_back. reflexivity.
  - inversion Hall as [| ? ? Hx Hrest]; subst.
    change (PyStr.join (one_char c) (x :: y :: rest))
      with (x ++ String c (PyStr.join (one_char c) (y :: rest)))%string.
    rewrite split_scan_joined, (split_scan_absent c x EmptyString Hx),
      rev_onto_back.
    rewrite IH; [reflexivity | discriminate | exact Hrest].
Qed.

(** ** Stripping *)

Lemma lstrip_all_space (s : string) :
  all_space s = true -> PyStr.lstrip s = EmptyString.
Proof.
  induction s as [| c s IH]; simpl; intros Hs; [reflexivity |].
  apply andb_true_iff in Hs. destruct Hs as [Hc Hs]. rewrite Hc. apply IH, Hs.
Qed.

Lemma rstrip_all_space (s : string) :
  all_space s = true -> PyStr.rstrip s = EmptyString.
Proof.
  induction s as [| c s IH]; simpl; intros Hs; [reflexivity |].
  apply andb_true_iff in Hs. destruct Hs as [Hc Hs].
  rewrite (IH Hs), Hc. reflexivity.
Qed.

Lemma lstrip_lead (lead s : string) :
  all_space lead = true -> PyStr.lstrip (lead ++ s)%string = PyStr.lstrip s.
Proof.
  induction lead as [| c lead IH]; simpl; intros Hl; [reflexivity |].
  apply andb_true_iff in Hl. destruct Hl as [Hc Hl]. rewrite Hc. apply IH, Hl.
Qed.

Lemma rstrip_trail (s trail : string) :
  all_space trail = true -> PyStr.rstrip (s ++ trail)%string = PyStr.rstrip s.
Proof.
  intros Ht. induction s as [| c s IH]; simpl.
  - apply rstrip_all_space, Ht.
  - rewrite IH. reflexivity.
Qed.

Lemma lstrip_stripped_left (s : string) : stripped_left (PyStr.lstrip s).
Proof.
  induction s as [| c s IH]; simpl; [exact I |].
  destruct (PyStr.is_space c) eqn:Hc; [exact IH | exact Hc].
Qed.

Lemma lstrip_fixed (s : string) : stripped_left s -> PyStr.lstrip s = s.
Proof.
  destruct s as [| c s]; simpl; intros H; [reflexivity |].
  rewrite H. reflexivity.
Qed.

Lemma lstrip_append (s trail : string) :
  PyStr.lstrip s <> EmptyString ->
  PyStr.lstrip (s ++ trail)%string = (PyStr.lstrip s ++ trail)%string.
Proof.
  induction s as [| c s IH]; simpl; intros H; [contradiction |].
  destruct (PyStr.is_space c); [apply IH, H | reflexivity].
Qed.

Lemma lstrip_empty_all_space (s : string) :
  PyStr.lstrip s = EmptyString -> all_space s = true.
Proof.
  induction s as [| c s IH]; simpl; intros H; [reflexivity |].
  destruct (PyStr.is_space c); [simpl; apply IH, H | discriminate H].
Qed.

Lemma all_space_append (a b : string) :
  all_space a = true -> all_space b = true -> all_space (a ++ b)%string = true.
Proof.
  induction a as [| c a IH]; simpl; intros Ha Hb; [exact Hb |].
  apply andb_true_iff in Ha. destruct Ha as [Hc Ha].
  rewrite Hc. simpl. apply IH; assumption.
Qed.

(** Whitespace at the ends does not reach the stripped string. *)
Lemma strip_padded (s t : string) :
  padded s t -> PyStr.strip t = PyStr.strip s.
Proof.
  intros (lead & trail & Hl & Ht & ->). unfold PyStr.strip.
  rewrite (lstrip_lead lead _ Hl).
  destruct (PyStr.lstrip s) as [| c r] eqn:Hs.
  - rewrite lstrip_all_space; [reflexivity |].
    apply all_space_append; [apply lstrip_empty_all_space, Hs | exact Ht].
  - rewrite lstrip_append; [| rewrite Hs; discriminate].
    rewrite Hs. apply rstrip_trail, Ht.
Qed.

Lemma rstrip_stripped_left (s : string) :
  stripped_left s -> stripped_left (PyStr.rstrip s).
Proof.
  destruct s as [| c s]; simpl; intros H; [exact I |].
  destruct (PyStr.rstrip s); [rewrite H |]; exact H.
Qed.

Lemma rstrip_idempotent (s : string) :
  PyStr.rstrip (PyStr.rstrip s) = PyStr.rstrip s.
Proof.
  induction s as [| c s IH]; simpl; [reflexivity |].
  destruct (PyStr.rstrip s) as [| d r] eqn:Hr.
  - destruct (PyStr.is_space c) eqn:Hc; simpl; [reflexivity |].
    rewrite Hc. reflexivity.
  - simpl in IH. simpl. rewrite IH. reflexivity.
Qed.

Lemma strip_idempotent (s : string) :
  PyStr.strip (PyStr.strip s) = PyStr.strip s.
Proof.
  unfold PyStr.strip.
  rewrite (lstrip_fixed (PyStr.rstrip (PyStr.lstrip s))).
  - apply rstrip_idempotent.
  - apply rstrip_stripped_left, lstrip_stripped_left.
Qed.

Lemma has_char_lstrip (c : ascii) (s : string) :
  has_char c s = false -> has_char c (PyStr.lstrip s) = false.
Proof.
  induction s as [| a s IH]; simpl; intros H; [reflexivity |].
  apply orb_false_iff in H. destruct H as [Ha Hs].
  destruct (PyStr.is_space a); [apply IH, Hs |].
  simpl. rewrite Ha. exact Hs.
Qed.

Lemma has_char_rstrip (c : ascii) (s : string) :
  has_char c s = false -> has_char c (PyStr.rstrip s) = false.
Proof.
  induction s as [| a s IH]; simpl; intros H; [reflexivity |].
  apply orb_false_iff in H. destruct H as [Ha Hs]. specialize (IH Hs).
  destruct (PyStr.rstrip s) as [| d r].
  - destruct (PyStr.is_space a); simpl; [reflexivity |].
    rewrite Ha. reflexivity.
  - simpl. rewrite Ha. exact IH.
Qed.

Lemma has_char_strip (c : ascii) (s : string) :
  has_char c s = false -> has_char c (PyStr.strip s) = false.
Proof.
  intros H. apply has_char_rstrip, has_char_lstrip, H.
Qed.

(** ** The items of a description *)

Lemma map_strip_strings (fields : list string) :
  map_result py_strip (map PStr fields) = OK (map PyStr.strip fields).
Proof.
  induction fields as [| f fields IH]; simpl; [reflexivity |].
  rewrite IH. reflexivity.
Qed.

Lemma description_items_string (s : string) (a : ascii) (sep' : string) :
  description_items (PStr s) (String a sep')
  = OK (map PyStr.strip (PyStr.split_scan (String a sep') s EmptyString 0)).
Proof.
  unfold description_items, PyStr.split. cbn [bind].
  apply map_strip_strings.
Qed.

Lemma description_items_list (items : list string) (sep : string) :
  description_items (PList (map PStr items)) sep
  = OK (map PyStr.strip items).
Proof.
  unfold description_items. cbn [py_iter bind]. apply map_strip_strings.
Qed.

Lemma description_items_joined (c : ascii) (items : list string) :
  items <> [] ->
  Forall (fun item => has_char c item = false) items ->
  description_items (PStr (PyStr.join (one_char c) items)) (one_char c)
  = OK (map PyStr.strip items).
Proof.
  intros Hne Hall.
  unfold one_char. rewrite description_items_string. fold (one_char c).
  rewrite (split_scan_join c items Hne Hall). reflexivity.
Qed.

Lemma strings_not_structured (item : string) (items : list string) :
  _is_structured_label_vector (PList (map PStr (item :: items))) = OK false.
Proof. rewrite validator_spec. reflexivity. Qed.

(** Off the fast path the result is decided by the items alone. *)
Lemma parse_by_items (description : pyval) (columns : option (list string))
      (k : kwds) (items : list string) :
  _is_structured_label_vector description = OK false ->
  description_items description (sep k) = OK items ->
  parse_label_vector_description description columns k
  = (label_vector <- for_each items [] (parse_step columns k) ;;
     if (total_length label_vector =? 0)%nat
     then Err (ValueError "no valid terms provided")
     else OK (py_of_label_vector label_vector)).
Proof.
  intros Hv Hitems. unfold parse_label_vector_description.
  rewrite Hv, Hitems. reflexivity.
Qed.

(** ** A bare label *)

Lemma read_bare_factor (columns : option (list string)) (c : ascii)
      (t : string) :
  has_char c t = false ->
  get_power (one_char c) t = OK (NInt 1)
  /\ get_label columns (one_char c) t
     = match columns with
       | None => OK (LName (PyStr.strip t))
       | Some cols =>
           match index_of (PyStr.strip t) cols with
           | Some i => OK (LIndex i)
           | None => Err (ValueError "is not in list")
           end
       end.
Proof.
  intros Ht. split.
  - unfold get_power. rewrite contains_one_char, Ht. reflexivity.
  - unfold get_label. rewrite (split_absent c t Ht). reflexivity.
Qed.

(** X1: a description with none of the three operator characters in it is
    one term of one factor: its stripped text (or the position of that
    text in the columns) with the integer power 1, and the error of the
    lookup when the columns do not have it. *)
Theorem bare_label_parses (s : string) (columns : option (list string))
        (k : kwds) (cs cm cp : ascii) :
  sep k = one_char cs -> mul k = one_char cm -> pow k = one_char cp ->
  has_char cs s = false -> has_char cm s = false -> has_char cp s = false ->
  parse_label_vector_description (PStr s) columns k
  = match columns with
    | None => OK (py_of_label_vector [[(LName (PyStr.strip s), NInt 1)]])
    | Some cols =>
        match index_of (PyStr.strip s) cols with
        | Some i => OK (py_of_label_vector [[(LIndex i, NInt 1)]])
        | None => Err (ValueError "is not in list")
        end
    end.
Proof.
  intros Hsep Hmul Hpow Hs Hm Hp.
  rewrite (parse_by_items (PStr s) columns k [PyStr.strip s] eq_refl).
  2:{ rewrite Hsep. unfold one_char. rewrite description_items_string.
      fold (one_char cs). rewrite (split_scan_absent cs s EmptyString Hs).
      rewrite rev_onto_back. reflexivity. }
  cbn [for_each bind]. unfold parse_step, parse_item, term_dict.
  rewrite Hmul, Hpow.
  rewrite (split_absent cm _ (has_char_strip cm s Hm)).
  cbn [bind]. unfold collect_term. cbn [for_each bind]. unfold collect_step.
  destruct (read_bare_factor columns cp (PyStr.strip s) (has_char_strip cp s Hp))
    as [Hpower Hlabel].
  rewrite Hlabel, Hpower, strip_idempotent.
  destruct columns as [cols |]; [destruct (index_of (PyStr.strip s) cols) |];
    reflexivity.
Qed.

Lemma bare_label_parses_witness :
  parse_label_vector_description (PStr " logg ") (Some ["Teff"; "logg"])
                                 default_kwds
  = OK (py_of_label_vector [[(LIndex 1, NInt 1)]]).
Proof.
  apply (bare_label_parses " logg " (Some ["Teff"; "logg"]) default_kwds
                           "+" "*" "^"); reflexivity.
Defined.

(** ** Empty operators *)

Lemma first_item_fails (columns : option (list string)) (k : kwds)
      (item : string) (items : list string) (e : exn) :
  term_dict columns k item = Err e ->
  for_each (item :: items) [] (parse_step columns k) = Err e.
Proof.
  intros H. cbn [for_each]. unfold parse_step, parse_item. rewrite H.
  reflexivity.
Qed.

(** X2: the operators must be non-empty: with an empty separator,
    multiplication or power operator every string description is refused
    with the [ValueError] of [str.split]. *)
Theorem empty_operator_refused (s : string) (columns : option (list string))
        (k : kwds) :
  sep k = EmptyString \/ mul k = EmptyString \/ pow k = EmptyString ->
  parse_label_vector_description (PStr s) columns k
  = Err (ValueError "empty separator").
Proof.
  intros H. destruct (sep k) as [| a sep'] eqn:Hsep.
  - unfold parse_label_vector_description. rewrite Hsep. reflexivity.
  - rewrite (parse_by_items (PStr s) columns k _ eq_refl
                            (eq_trans (f_equal _ Hsep)
                                      (description_items_string s a sep'))).
    destruct (split_scan_nonempty (String a sep') s EmptyString 0)
      as (field & fields & ->).
    cbn [map].
    rewrite (first_item_fails columns k _ _ (ValueError "empty separator"));
      [reflexivity |].
    unfold term_dict. destruct (mul k) as [| b mul'] eqn:Hmul; [reflexivity |].
    unfold PyStr.split. cbn [bind].
    destruct (split_scan_nonempty (String b mul') (PyStr.strip field)
                                  EmptyString 0) as (f & fs & ->).
    destruct H as [H | [H | H]]; try discriminate H.
    unfold collect_term. cbn [for_each]. unfold collect_step, get_label.
    rewrite H. reflexivity.
Qed.

Lemma empty_operator_refused_witness :
  parse_label_vector_description (PStr "Teff^2 + logg") None
    {| sep := "+"; mul := ""; pow := "^" |}
  = Err (ValueError "empty separator").
Proof.
  apply empty_operator_refused. right. left. reflexivity.
Defined.

(** ** Descriptions put together *)

Lemma for_each_app {A S : Type} (body : S -> A -> result S) (xs ys : list A) :
  forall acc,
    for_each (xs ++ ys) acc body
    = (acc' <- for_each xs acc body ;; for_each ys acc' body).
Proof.
  induction xs as [| x xs IH]; intros acc; simpl; [reflexivity |].
  destruct (body acc x) as [acc' | e]; simpl; [apply IH | reflexivity].
Qed.

(** The loop only ever appends to the vector it was started with. *)
Lemma parse_loop_prefix (columns : option (list string)) (k : kwds)
      (items : list string) :
  forall acc,
    for_each items acc (parse_step columns k)
    = (label_vector <- for_each items [] (parse_step columns k) ;;
       OK (acc ++ label_vector)).
Proof.
  induction items as [| item items IH]; intros acc.
  - simpl. rewrite app_nil_r. reflexivity.
  - cbn [for_each]. unfold parse_step at 1 3.
    destruct (parse_item columns k item) as [vt | e]; cbn [bind];
      [| reflexivity].
    destruct (0 <? List.length vt)%nat.
    + rewrite (IH (acc ++ [vt])), (IH ([] ++ [vt])).
      destruct (for_each items [] (parse_step columns k)) as [lv | e];
        cbn [bind]; [| reflexivity].
      rewrite <- app_assoc. reflexivity.
    + apply IH.
Qed.

Lemma total_length_app (xs ys : list ordered_dict) :
  total_length (xs ++ ys) = total_length xs + total_length ys.
Proof.
  unfold total_length. induction xs as [| x xs IH]; simpl; [reflexivity |].
  rewrite IH. lia.
Qed.

(** X3: terms are parsed one by one: when two descriptions parse, the two
    joined by the separator parse to the terms of the first followed by
    the terms of the second, nothing merged and nothing reordered. *)
Theorem joined_descriptions_parse (s1 s2 : string)
        (columns : option (list string)) (k : kwds) (c : ascii)
        (y1 y2 : pyval) :
  sep k = one_char c ->
  parse_label_vector_description (PStr s1) columns k = OK y1 ->
  parse_label_vector_description (PStr s2) columns k = OK y2 ->
  exists lv1 lv2,
    y1 = py_of_label_vector lv1 /\ y2 = py_of_label_vector lv2 /\
    parse_label_vector_description (PStr (s1 ++ sep k ++ s2)) columns k
    = OK (py_of_label_vector (lv1 ++ lv2)).
Proof.
  intros Hsep H1 H2.
  destruct (parse_path (PStr s1) columns k y1 eq_refl H1)
    as (items1 & lv1 & Hi1 & Hl1 & Hn1 & ->).
  destruct (parse_path (PStr s2) columns k y2 eq_refl H2)
    as (items2 & lv2 & Hi2 & Hl2 & Hn2 & ->).
  exists lv1, lv2. split; [reflexivity |]. split; [reflexivity |].
  rewrite Hsep in Hi1, Hi2. unfold one_char in Hi1, Hi2.
  rewrite description_items_string in Hi1, Hi2.
  injection Hi1 as <-. injection Hi2 as <-.
  rewrite (parse_by_items (PStr (s1 ++ sep k ++ s2)) columns k
             (map PyStr.strip (PyStr.split_scan (one_char c) s1 EmptyString 0)
              ++ map PyStr.strip (PyStr.split_scan (one_char c) s2 EmptyString 0))
             eq_refl).
  - rewrite for_each_app. fold (one_char c) in Hl1, Hl2.
    rewrite Hl1. cbn [bind]. rewrite parse_loop_prefix, Hl2. cbn [bind].
    destruct (Nat.eqb_spec (total_length (lv1 ++ lv2)) 0) as [Hz | _];
      [| reflexivity].
    rewrite total_length_app in Hz. lia.
  - rewrite Hsep. unfold one_char at 1 2. rewrite description_items_string.
    fold (one_char c).
    change (s1 ++ one_char c ++ s2)%string with (s1 ++ String c s2)%string.
    rewrite split_scan_joined, map_app. reflexivity.
Qed.

Lemma joined_descriptions_parse_witness :
  exists lv1 lv2,
    PList [PList [PTuple [PStr "Teff"; PFloat 2%float]]] = py_of_label_vector lv1 /\
    PList [PList [PTuple [PStr "Teff"; PInt 1]; PTuple [PStr "logg"; PInt 1]]]
    = py_of_label_vector lv2 /\
    parse_label_vector_description
      (PStr ("Teff^2" ++ sep default_kwds ++ "Teff*logg")) None default_kwds
    = OK (py_of_label_vector (lv1 ++ lv2)).
Proof.
  apply (joined_descriptions_parse "Teff^2" "Teff*logg" None default_kwds "+");
    vm_compute; reflexivity.
Defined.

(** X4: a sequence of strings, none of which holds the separator, parses
    as the one string that joins them by the separator does. *)
Theorem sequence_parses_as_joined_string (items : list string)
        (columns : option (list string)) (k : kwds) (c : ascii) :
  sep k = one_char c ->
  items <> [] ->
  Forall (fun item => has_char c item = false) items ->
  parse_label_vector_description (PList (map PStr items)) columns k
  = parse_label_vector_description (PStr (PyStr.join (sep k) items)) columns k.
Proof.
  intros Hsep Hne Hall.
  destruct items as [| item rest]; [contradiction |].
  rewrite (parse_by_items _ columns k _ (strings_not_structured item rest)
                          (description_items_list _ _)).
  rewrite (parse_by_items (PStr _) columns k
                          (map PyStr.strip (item :: rest)) eq_refl);
    [reflexivity |].
  rewrite Hsep. apply description_items_joined; assumption.
Qed.

Lemma sequence_parses_as_joined_string_witness :
  parse_label_vector_description
    (PList (map PStr ["Teff^2"; "logg*Teff"])) (Some ["Teff"; "logg"]) default_kwds
  = parse_label_vector_description
      (PStr (PyStr.join (sep default_kwds) ["Teff^2"; "logg*Teff"]))
      (Some ["Teff"; "logg"]) default_kwds.
Proof.
  apply (sequence_parses_as_joined_string ["Teff^2"; "logg*Teff"]
           (Some ["Teff"; "logg"]) default_kwds "+").
  - reflexivity.
  - discriminate.
  - repeat constructor.
Defined.

(** ** Whitespace around the items *)

Lemma strip_all_padded (items wide : list string) :
  Forall2 padded items wide ->
  map PyStr.strip wide = map PyStr.strip items.
Proof.
  induction 1 as [| s t items wide Hst _ IH]; simpl; [reflexivity |].
  rewrite (strip_padded s t Hst), IH. reflexivity.
Qed.

Lemma has_char_append (c : ascii) (a b : string) :
  has_char c (a ++ b)%string = has_char c a || has_char c b.
Proof.
  induction a as [| x a IH]; simpl; [reflexivity |].
  rewrite IH, orb_assoc. reflexivity.
Qed.

Lemma all_space_has_no (c : ascii) (s : string) :
  PyStr.is_space c = false -> all_space s = true -> has_char c s = false.
Proof.
  intros Hc. induction s as [| a s IH]; simpl; intros Hs; [reflexivity |].
  apply andb_true_iff in Hs. destruct Hs as [Ha Hs]. rewrite (IH Hs).
  destruct (Ascii.eqb_spec c a) as [-> | _]; [| reflexivity].
  rewrite Ha in Hc. discriminate Hc.
Qed.

Lemma padded_has_no (c : ascii) (items wide : list string) :
  PyStr.is_space c = false ->
  Forall2 padded items wide ->
  Forall (fun item => has_char c item = false) items ->
  Forall (fun item => has_char c item = false) wide.
Proof.
  intros Hc. induction 1 as [| s t items wide Hst _ IH]; intros Hall;
    [constructor |].
  inversion Hall as [| ? ? Hs Hrest]; subst. constructor; [| apply IH, Hrest].
  destruct Hst as (lead & trail & Hl & Ht & ->).
  rewrite !has_char_append, Hs, (all_space_has_no c lead Hc Hl),
    (all_space_has_no c trail Hc Ht). reflexivity.
Qed.

(** X5: whitespace around the items of a description is ignored: a
    sequence of strings parses as the sequence of the same strings with
    whitespace added at their ends, and so does the string that joins
    them, the separator being no whitespace. *)
Theorem whitespace_around_items_ignored (items wide : list string)
        (columns : option (list string)) (k : kwds) :
  Forall2 padded items wide ->
  parse_label_vector_description (PList (map PStr wide)) columns k
  = parse_label_vector_description (PList (map PStr items)) columns k
  /\ (forall c,
         sep k = one_char c -> PyStr.is_space c = false ->
         items <> [] ->
         Forall (fun item => has_char c item = false) items ->
         parse_label_vector_description
           (PStr (PyStr.join (sep k) wide)) columns k
         = parse_label_vector_description
             (PStr (PyStr.join (sep k) items)) columns k).
Proof.
  intros Hpad.
  assert (Hstrip := strip_all_padded items wide Hpad). split.
  - destruct Hpad as [| s t items wide Hst Hrest]; [reflexivity |].
    rewrite !(parse_by_items _ columns k _ (strings_not_structured _ _)
                             (description_items_list _ _)).
    rewrite Hstrip. reflexivity.
  - intros c Hsep Hc Hne Hall.
    assert (Hwide := padded_has_no c items wide Hc Hpad Hall).
    assert (Hne' : wide <> []).
    { destruct Hpad; [contradiction | discriminate]. }
    assert (Hitems : forall xs, xs <> [] ->
               Forall (fun item => has_char c item = false) xs ->
               description_items (PStr (PyStr.join (sep k) xs)) (sep k)
               = OK (map PyStr.strip xs)).
    { intros xs Hx Hxs. rewrite Hsep.
      apply description_items_joined; assumption. }
    rewrite (parse_by_items (PStr (PyStr.join (sep k) wide)) columns k _
                            eq_refl (Hitems wide Hne' Hwide)).
    rewrite (parse_by_items (PStr (PyStr.join (sep k) items)) columns k _
                            eq_refl (Hitems items Hne Hall)).
    rewrite Hstrip. reflexivity.
Qed.

Lemma whitespace_around_items_ignored_witness :
  parse_label_vector_description
    (PList (map PStr [" Teff^4 "; " logg"])) None default_kwds
  = parse_label_vector_description
      (PList (map PStr ["Teff^4"; "logg"])) None default_kwds
  /\ (forall c,
         sep default_kwds = one_char c -> PyStr.is_space c = false ->
         ["Teff^4"; "logg"] <> [] ->
         Forall (fun item => has_char c item = false) ["Teff^4"; "logg"] ->
         parse_label_vector_description
           (PStr (PyStr.join (sep default_kwds) [" Teff^4 "; " logg"]))
           None default_kwds
         = parse_label_vector_description
             (PStr (PyStr.join (sep default_kwds) ["Teff^4"; "logg"]))
             None default_kwds).
Proof.
  apply (whitespace_around_items_ignored ["Teff^4"; "logg"]
                                         [" Teff^4 "; " logg"]).
  constructor; [| constructor; [| constructor]].
  - exists " ", " ". repeat split; reflexivity.
  - exists " ", "". repeat split; reflexivity.
Defined.

(** ** What every parsed term looks like *)

Lemma map_result_forall {A B : Type} (f : A -> result B) (Q : B -> Prop) :
  (forall x y, f x = OK y -> Q y) ->
  forall xs ys, map_result f xs = OK ys -> Forall Q ys.
Proof.
  intros Hf xs. induction xs as [| x xs IH]; simpl; intros ys H.
  - injection H as <-. constructor.
  - apply bind_ok in H. destruct H as (y & Hy & H).
    apply bind_ok in H. destruct H as (ys' & Hys & H). injection H as <-.
    constructor; [apply (Hf x y Hy) | apply (IH ys' Hys)].
Qed.

Lemma first_seen_incl (ls : list label) (l : label) :
  In l (first_seen ls) -> In l ls.
Proof.
  induction ls as [| x ls IH]; simpl; [intros [] |].
  intros [-> | H]; [left; reflexivity | right].
  apply filter_In in H. apply IH, H.
Qed.

Lemma keys_of_filter (f : label * pynum -> bool) (d : ordered_dict) (l : label) :
  In l (map fst (filter f d)) -> In l (map fst d).
Proof.
  intros H. apply in_map_iff in H. destruct H as (lo & <- & Hin).
  apply filter_In in Hin. apply in_map, Hin.
Qed.

Lemma nodup_keys_filter (f : label * pynum -> bool) (d : ordered_dict) :
  NoDup (map fst d) -> NoDup (map fst (filter f d)).
Proof.
  induction d as [| lo d IH]; simpl; intros H; [constructor |].
  inversion H as [| ? ? Hout Hd]; subst.
  destruct (f lo); simpl; [| apply IH, Hd].
  constructor; [| apply IH, Hd].
  intros Hin. apply Hout. apply (keys_of_filter f d _ Hin).
Qed.

Section TermDictionary.

Variable columns : option (list string).
Variable k : kwds.

Lemma term_dict_reads (item : string) (term : ordered_dict) :
  term_dict columns k item = OK term ->
  exists descriptor factors,
    PyStr.split item (mul k) = OK descriptor /\
    map_result (read_factor columns (pow k)) descriptor = OK factors /\
    for_each factors [] add_factor = OK term.
Proof.
  unfold term_dict. intros H.
  apply bind_ok in H. destruct H as (descriptor & Hsplit & H).
  destruct (collect_reads columns (pow k) descriptor [] term H)
    as (factors & Hread & Hagg).
  exists descriptor, factors. repeat split; assumption.
Qed.

Lemma parse_item_distinct (item : string) (valid_terms : ordered_dict) :
  parse_item columns k item = OK valid_terms ->
  NoDup (map fst valid_terms).
Proof.
  unfold parse_item. intros H.
  apply bind_ok in H. destruct H as (term & Hterm & H).
  destruct (all_finite (valid_terms_of term)); simpl in H; [| discriminate H].
  injection H as <-. unfold valid_terms_of. apply nodup_keys_filter.
  destruct (term_dict_reads item term Hterm) as (_ & factors & _ & _ & Hagg).
  apply (add_factors_nodup factors [] term Hagg). constructor.
Qed.

Lemma parse_item_labels (P : label -> Prop) (item : string)
      (valid_terms : ordered_dict) :
  (forall factor l, get_label columns (pow k) factor = OK l -> P l) ->
  parse_item columns k item = OK valid_terms ->
  Forall (fun lo => P (fst lo)) valid_terms.
Proof.
  intros HP. unfold parse_item. intros H.
  apply bind_ok in H. destruct H as (term & Hterm & H).
  destruct (all_finite (valid_terms_of term)); simpl in H; [| discriminate H].
  injection H as <-.
  destruct (term_dict_reads item term Hterm)
    as (descriptor & factors & _ & Hread & Hagg).
  assert (Hfactors : Forall (fun lo => P (fst lo)) factors).
  { apply (map_result_forall (read_factor columns (pow k)) _) with (xs := descriptor);
      [| exact Hread].
    intros f [l o] Hf. unfold read_factor in Hf.
    apply bind_ok in Hf. destruct Hf as (l' & Hl & Hf).
    apply bind_ok in Hf. destruct Hf as (o' & _ & Hf).
    injection Hf as <- <-. apply (HP f l' Hl). }
  apply Forall_forall. intros [l o] Hin. simpl.
  assert (Hkey : In l (map fst term)).
  { apply (keys_of_filter (fun lo => ne_zero (snd lo))).
    apply in_map_iff. exists (l, o). split; [reflexivity | exact Hin]. }
  pose proof (add_factors_keys factors [] term Hagg) as Hkeys.
  simpl in Hkeys. rewrite Hkeys in Hkey.
  apply filter_In in Hkey. destruct Hkey as [Hkey _].
  apply first_seen_incl in Hkey. apply in_map_iff in Hkey.
  destruct Hkey as (lo & <- & Hlo).
  rewrite Forall_forall in Hfactors. apply (Hfactors lo Hlo).
Qed.

End TermDictionary.

(** X6: on the parsing path, for a string as for a sequence of strings,
    the vector returned is not empty, none of its terms is empty, no label
    occurs twice within a term, and every power is finite and not zero. *)
Theorem parsed_terms_are_well_formed (description : pyval)
        (columns : option (list string)) (k : kwds) (y : pyval) :
  _is_structured_label_vector description = OK false ->
  parse_label_vector_description description columns k = OK y ->
  exists label_vector,
    y = py_of_label_vector label_vector /\
    label_vector <> [] /\
    Forall (fun valid_terms =>
              valid_terms <> [] /\
              NoDup (map fst valid_terms) /\
              Forall (fun lo => ne_zero (snd lo) = true /\ isfinite (snd lo) = true)
                     valid_terms)
           label_vector.
Proof.
  intros Hv H.
  destruct (parse_path description columns k y Hv H)
    as (items & lv & _ & Hloop & Hlen & ->).
  exists lv. split; [reflexivity |]. split.
  - intros ->. apply Hlen. reflexivity.
  - apply (parse_loop_keeps columns k) with (items := items) (acc := []).
    + intros item vt Hitem Hne. split; [exact Hne |]. split.
      * apply (parse_item_distinct columns k item vt Hitem).
      * apply (parse_item_retained columns k item vt Hitem).
    + exact Hloop.
    + constructor.
Qed.

Lemma parsed_terms_are_well_formed_witness :
  exists label_vector,
    PList [PList [PTuple [PStr "Teff"; PFloat 3%float]];
           PList [PTuple [PStr "logg"; PInt 1]]]
    = py_of_label_vector label_vector /\
    label_vector <> [] /\
    Forall (fun valid_terms =>
              valid_terms <> [] /\
              NoDup (map fst valid_terms) /\
              Forall (fun lo => ne_zero (snd lo) = true /\ isfinite (snd lo) = true)
                     valid_terms)
           label_vector.
Proof.
  apply (parsed_terms_are_well_formed
           (PList [PStr "Teff*Teff^2"; PStr " logg "]) None default_kwds);
    vm_compute; reflexivity.
Defined.

(** ** The indices the constructor stores *)

Lemma index_of_in_range (x : string) (columns : list string) (i : nat) :
  index_of x columns = Some i -> i < List.length columns.
Proof.
  intros H. apply index_of_some in H. destruct H as [Hnth _].
  apply nth_error_Some. rewrite Hnth. discriminate.
Qed.

Lemma get_label_in_range (columns : list string) (pow factor : string)
      (l : label) :
  get_label (Some columns) pow factor = OK l ->
  exists i, l = LIndex i /\ i < List.length columns.
Proof.
  unfold get_label. intros H.
  apply bind_ok in H. destruct H as (parts & _ & H).
  destruct (nth_error parts 0) as [p |]; [| discriminate H].
  destruct (index_of (PyStr.strip p) columns) as [i |] eqn:Hi;
    [| discriminate H].
  injection H as <-. exists i. split; [reflexivity |].
  apply (index_of_in_range _ _ _ Hi).
Qed.

(** X7: when the constructor parses its terms (they are not structured
    already), every label it stores is an index into the labels of the
    vectorizer, below their number. *)
Theorem constructed_indices_in_range (names : list string)
        (offsets divisors : list float) (description : pyval)
        (self : PolynomialVectorizer) :
  _is_structured_label_vector description = OK false ->
  __init__ names offsets divisors description = OK self ->
  labels self = names /\
  exists label_vector,
    _parsed_terms self = py_of_label_vector label_vector /\
    Forall (Forall (fun lo => exists i, fst lo = LIndex i
                                        /\ i < List.length names))
           label_vector.
Proof.
  intros Hv Hinit. unfold __init__ in Hinit.
  apply bind_ok in Hinit. destruct Hinit as (parsed & Hparse & Hself).
  injection Hself as <-. split; [reflexivity |]. cbn [_parsed_terms].
  destruct (parse_path description (Some names) default_kwds parsed Hv Hparse)
    as (items & lv & _ & Hloop & _ & ->).
  exists lv. split; [reflexivity |].
  apply (parse_loop_keeps (Some names) default_kwds)
    with (items := items) (acc := []); [| exact Hloop | constructor].
  intros item vt Hitem _.
  apply (parse_item_labels (Some names) default_kwds
           (fun l => exists i, l = LIndex i /\ i < List.length names) item vt);
    [| exact Hitem].
  intros factor l Hl. apply (get_label_in_range names _ factor l Hl).
Qed.

Lemma constructed_indices_in_range_witness :
  labels two_label_vectorizer = ["Teff"; "logg"] /\
  exists label_vector,
    _parsed_terms two_label_vectorizer = py_of_label_vector label_vector /\
    Forall (Forall (fun lo => exists i, fst lo = LIndex i
                                        /\ i < List.length ["Teff"; "logg"]))
           label_vector.
Proof.
  apply (constructed_indices_in_range ["Teff"; "logg"]
           [0%float; 0%float] [1%float; 1%float] (PStr "Teff + logg^2"));
    vm_compute; reflexivity.
Defined.

(** ** No partial results *)

(** X8: a description is parsed whole or not at all: when any factor of
    any of its items cannot be read, for its label or for its power, the
    call raises. *)
Theorem unreadable_factor_fails (description : pyval)
        (columns : option (list string)) (k : kwds) (items : list string)
        (item : string) (descriptor : list string) (factor : string)
        (e : exn) :
  _is_structured_label_vector description = OK false ->
  description_items description (sep k) = OK items ->
  In item items ->
  PyStr.split item (mul k) = OK descriptor ->
  In factor descriptor ->
  read_factor columns (pow k) factor = Err e ->
  exists e', parse_label_vector_description description columns k = Err e'.
Proof.
  intros Hv Hitems Hitem Hsplit Hfactor Hread.
  rewrite (parse_by_items description columns k items Hv Hitems).
  destruct (for_each_member_fails (parse_step columns k) item) with
    (xs := items) (acc := @nil ordered_dict) as (e' & He').
  - intros acc. unfold parse_step, parse_item, term_dict, collect_term.
    rewrite Hsplit. cbn [bind].
    destruct (for_each_member_fails (S := list (label * pynum))
                (collect_step columns (pow k)) factor)
      with (xs := descriptor) (acc := @nil (label * pynum)) as (e1 & He1).
    + intros term. unfold collect_step. unfold read_factor in Hread.
      destruct (get_label columns (pow k) factor) as [l | el]; cbn [bind] in *;
        [| eexists; reflexivity].
      destruct (get_power (pow k) factor) as [o | eo]; cbn [bind] in *;
        [discriminate Hread | eexists; reflexivity].
    + exact Hfactor.
    + rewrite He1. exists e1. reflexivity.
  - exact Hitem.
  - rewrite He'. exists e'. reflexivity.
Qed.

Lemma unreadable_factor_fails_witness :
  exists e',
    parse_label_vector_description (PStr "Teff + logg^two") None default_kwds
    = Err e'.
Proof.
  apply (unreadable_factor_fails (PStr "Teff + logg^two") None default_kwds
           ["Teff"; "logg^two"] "logg^two" ["logg^two"] "logg^two"
           (ValueError "could not convert string to float"));
    try (vm_compute; reflexivity).
  - right. left. reflexivity.
  - left. reflexivity.
Defined.

(** ** The shape of the labels *)

(** X9: the number of dimensions is checked before anything is computed:
    an array of more than two dimensions is refused with the [ValueError]
    of line 66, and an array of no dimension fails on [shape[0]]. *)
Theorem labels_dimensions_checked (np : numpy) (self : PolynomialVectorizer)
        (values : ndarray) :
  (2 < ndim values ->
   get_label_vector np self values
   = Err (ValueError "labels must be a 1-d or 2-d array"))
  /\ (ndim values = 0 ->
      get_label_vector np self values
      = Err (IndexError "tuple index out of range")).
Proof.
  unfold get_label_vector, get_label_vector_in. split; intros H.
  - destruct (Nat.eqb_spec (ndim values) 1) as [H1 | _]; [lia |].
    destruct (Nat.ltb_spec 2 (ndim values)) as [_ | H2]; [reflexivity | lia].
  - rewrite H. cbn [Nat.eqb Nat.ltb Nat.leb bind].
    unfold ndim in H. destruct (shape values); [reflexivity | discriminate H].
Qed.

Lemma labels_dimensions_checked_witness :
  get_label_vector whole_numpy two_label_vectorizer
    {| shape := [1; 1; 2]; data := [5777%float; 4.5%float] |}
  = Err (ValueError "labels must be a 1-d or 2-d array")
  /\ get_label_vector whole_numpy two_label_vectorizer
       {| shape := []; data := [5777%float] |}
     = Err (IndexError "tuple index out of range").
Proof.
  split.
  - apply (proj1 (labels_dimensions_checked whole_numpy two_label_vectorizer
                    {| shape := [1; 1; 2]; data := [5777%float; 4.5%float] |})).
    unfold ndim. simpl. lia.
  - apply (proj2 (labels_dimensions_checked whole_numpy two_label_vectorizer
                    {| shape := []; data := [5777%float] |})).
    reflexivity.
Defined.

Lemma broadcast_keeps_shape
      (op : float -> float -> float) (n k : nat) (d v : list float) :
  List.length v = k ->
  exists d', broadcast op {| shape := [n; k]; data := d |} v
             = OK {| shape := [n; k]; data := d' |}.
Proof.
  intros Hv. unfold broadcast. cbn [shape]. rewrite Hv, Nat.eqb_refl.
  cbn [orb]. destruct (k =? 1)%nat; eexists; reflexivity.
Qed.




(** ** What the builder returns *)

(** X11: the builder never returns a description of a term: when the loop
    of line 239 has a turn to make (the order is 1 or more, or the
    cross-term order in force is 0 or more) it raises [NameError] on
    [combinations_with_replacement], and otherwise it returns the empty
    string. *)
Theorem builder_describes_nothing (names : list string)
        (order cross_term_order : Z) (k : kwds) :
  let in_force :=
    if (0 >? cross_term_order)%Z then (order - 1)%Z else cross_term_order in
  ((1 <= order \/ 0 <= in_force)%Z /\
   build_label_vector names order cross_term_order k
   = Err (NameError "combinations_with_replacement"))
  \/ ((order <= 0 /\ in_force < 0)%Z /\
      build_label_vector names order cross_term_order k = OK "").
Proof.
  intros in_force.
  destruct (Z_le_gt_dec 1 (Z.max order (1 + in_force))) as [Hrun | Hskip].
  - left. split; [lia |]. apply build_label_vector_raises. exact Hrun.
  - right. split; [lia |].
    unfold build_label_vector, build_label_vector_in. fold in_force.
    replace (Z.to_nat (Z.max order (1 + in_force))) with 0 by lia.
    reflexivity.
Qed.

(** ** Whitespace around the factors *)

Lemma rev_onto_acc (s acc : string) :
  PyStr.rev_onto acc s = (PyStr.rev_onto EmptyString s ++ acc)%string.
Proof.
  revert acc. induction s as [| c s IH]; intros acc; simpl; [reflexivity |].
  rewrite (IH (String c acc)), (IH (String c EmptyString)), append_assoc.
  reflexivity.
Qed.

(** What is already in the current field goes before the first field. *)
Lemma split_scan_cur (c : ascii) (s cur : string) :
  PyStr.split_scan (one_char c) s cur 0
  = prefix_first (PyStr.rev_onto EmptyString cur)
                 (PyStr.split_scan (one_char c) s EmptyString 0).
Proof.
  revert cur. induction s as [| a s IH]; intros cur.
  - simpl. rewrite append_empty_r. reflexivity.
  - rewrite !split_scan_step. destruct (Ascii.eqb c a).
    + simpl. rewrite append_empty_r. reflexivity.
    + rewrite (IH (String a cur)), (IH (String a EmptyString)).
      destruct (PyStr.split_scan (one_char c) s EmptyString 0) as [| p rest];
        [reflexivity |].
      simpl. rewrite (rev_onto_acc cur (String a EmptyString)), append_assoc.
      reflexivity.
Qed.

Lemma split_scan_lead (c : ascii) (lead s : string) :
  has_char c lead = false ->
  PyStr.split_scan (one_char c) (lead ++ s)%string EmptyString 0
  = prefix_first lead (PyStr.split_scan (one_char c) s EmptyString 0).
Proof.
  intros Hlead.
  assert (H : forall cur,
             PyStr.split_scan (one_char c) (lead ++ s)%string cur 0
             = PyStr.split_scan (one_char c) s (PyStr.rev_onto cur lead) 0).
  { induction lead as [| a lead IH]; intros cur; [reflexivity |].
    simpl in Hlead. apply orb_false_iff in Hlead. destruct Hlead as [Ha Hlead].
    change (String a lead ++ s)%string with (String a (lead ++ s)%string).
    rewrite split_scan_step, Ha. apply (IH Hlead). }
  rewrite H, split_scan_cur, rev_onto_back. reflexivity.
Qed.

Lemma split_scan_trail (c : ascii) (s trail : string) :
  has_char c trail = false ->
  forall cur,
    PyStr.split_scan (one_char c) (s ++ trail)%string cur 0
    = append_last (PyStr.split_scan (one_char c) s cur 0) trail.
Proof.
  intros Htrail. induction s as [| a s IH]; intros cur.
  - change (EmptyString ++ trail)%string with trail.
    rewrite (split_scan_absent c trail cur Htrail).
    rewrite rev_onto_twice, append_empty_r, (rev_onto_acc cur trail).
    reflexivity.
  - change (String a s ++ trail)%string with (String a (s ++ trail)%string).
    rewrite !split_scan_step. destruct (Ascii.eqb c a); [| apply IH].
    rewrite IH.
    destruct (split_scan_nonempty (one_char c) s EmptyString 0)
      as (p & rest & ->).
    reflexivity.
Qed.

Lemma padded_refl (s : string) : padded s s.
Proof.
  exists EmptyString, EmptyString. split; [reflexivity |].
  split; [reflexivity |]. simpl. rewrite append_empty_r. reflexivity.
Qed.

Lemma padded_fields (lead trail : string) (fields : list string) :
  all_space lead = true -> all_space trail = true ->
  Forall2 padded fields (prefix_first lead (append_last fields trail)).
Proof.
  intros Hl Ht.
  assert (Hlast : forall fs, Forall2 padded fs (append_last fs trail)).
  { induction fs as [| p [| q rest] IH].
    - constructor.
    - constructor; [| constructor].
      exists EmptyString, trail. repeat split; [exact Ht].
    - change (append_last (p :: q :: rest) trail)
        with (p :: append_last (q :: rest) trail).
      constructor; [apply padded_refl | exact IH]. }
  destruct fields as [| p [| q rest]].
  - constructor.
  - constructor; [| constructor].
    exists lead, trail. repeat split; assumption.
  - change (prefix_first lead (append_last (p :: q :: rest) trail))
      with ((lead ++ p)%string :: append_last (q :: rest) trail).
    constructor; [| apply Hlast].
    exists lead, EmptyString. split; [exact Hl |]. split; [reflexivity |].
    rewrite append_empty_r. reflexivity.
Qed.

(** The fields of a string with whitespace at its ends are the fields of
    the string, the first and the last with that whitespace. *)
Lemma split_scan_padded (c : ascii) (s t : string) :
  PyStr.is_space c = false ->
  padded s t ->
  Forall2 padded (PyStr.split_scan (one_char c) s EmptyString 0)
                 (PyStr.split_scan (one_char c) t EmptyString 0).
Proof.
  intros Hc (lead & trail & Hl & Ht & ->).
  rewrite (split_scan_lead c lead _ (all_space_has_no c lead Hc Hl)).
  rewrite (split_scan_trail c s trail (all_space_has_no c trail Hc Ht)).
  apply padded_fields; assumption.
Qed.

Lemma lstrip_decompose (t : string) :
  exists lead, all_space lead = true /\ t = (lead ++ PyStr.lstrip t)%string.
Proof.
  induction t as [| c t (lead & Hl & IH)].
  - exists EmptyString. split; reflexivity.
  - simpl. destruct (PyStr.is_space c) eqn:Hc.
    + exists (String c lead). simpl. rewrite Hc, Hl. split; [reflexivity |].
      rewrite <- IH. reflexivity.
    + exists EmptyString. split; reflexivity.
Qed.

Lemma rstrip_decompose (u : string) :
  exists trail, all_space trail = true /\ u = (PyStr.rstrip u ++ trail)%string.
Proof.
  induction u as [| c u (trail & Ht & IH)].
  - exists EmptyString. split; reflexivity.
  - simpl. destruct (PyStr.rstrip u) as [| d r] eqn:Hr.
    + simpl in IH. destruct (PyStr.is_space c) eqn:Hc.
      * exists (String c u). simpl. rewrite Hc. split; [| reflexivity].
        rewrite IH. exact Ht.
      * exists trail. split; [exact Ht |]. simpl. rewrite <- IH. reflexivity.
    + exists trail. split; [exact Ht |]. simpl. rewrite IH at 1. reflexivity.
Qed.

Lemma strip_decompose (t : string) : padded (PyStr.strip t) t.
Proof.
  destruct (lstrip_decompose t) as (lead & Hl & Ht).
  destruct (rstrip_decompose (PyStr.lstrip t)) as (trail & Htr & Hu).
  exists lead, trail. split; [exact Hl |]. split; [exact Htr |].
  unfold PyStr.strip. rewrite <- Hu. exact Ht.
Qed.

Lemma has_char_padded (c : ascii) (s t : string) :
  PyStr.is_space c = false -> padded s t -> has_char c t = has_char c s.
Proof.
  intros Hc (lead & trail & Hl & Ht & ->).
  rewrite !has_char_append, (all_space_has_no c lead Hc Hl),
    (all_space_has_no c trail Hc Ht), orb_false_r. reflexivity.
Qed.

(** A factor is read as the factor without the whitespace at its ends. *)
Lemma read_factor_padded (columns : option (list string)) (c : ascii)
      (f t : string) :
  PyStr.is_space c = false -> padded f t ->
  read_factor columns (one_char c) t = read_factor columns (one_char c) f.
Proof.
  intros Hc Hpad.
  pose proof (split_scan_padded c f t Hc Hpad) as Hfields.
  unfold read_factor, get_label, get_power.
  rewrite !contains_one_char, (has_char_padded c f t Hc Hpad).
  unfold PyStr.split, one_char. fold (one_char c). cbn [bind].
  destruct Hfields as [| p q ps qs Hpq Hrest]; [reflexivity |].
  cbn [nth_error]. rewrite (strip_padded p q Hpq).
  destruct Hrest as [| p1 q1 ps qs Hpq1 _]; [reflexivity |].
  rewrite (strip_padded p1 q1 Hpq1). reflexivity.
Qed.

Lemma collect_step_reads (columns : option (list string)) (pow : string)
      (term : ordered_dict) (factor : string) :
  collect_step columns pow term factor
  = (lo <- read_factor columns pow factor ;; add_factor term lo).
Proof.
  unfold collect_step, read_factor, add_factor.
  destruct (get_label columns pow factor) as [l | e]; cbn [bind];
    [| reflexivity].
  destruct (get_power pow factor) as [o | e]; reflexivity.
Qed.

Lemma for_each_pointwise {A S : Type} (body : S -> A -> result S)
      (xs ys : list A) :
  Forall2 (fun x y => forall acc, body acc x = body acc y) xs ys ->
  forall acc, for_each xs acc body = for_each ys acc body.
Proof.
  induction 1 as [| x y xs ys Hxy _ IH]; intros acc; [reflexivity |].
  cbn [for_each]. rewrite Hxy.
  destruct (body acc y) as [acc' | e]; cbn [bind]; [apply IH | reflexivity].
Qed.

Section PaddedFactors.

Variable columns : option (list string).
Variable k : kwds.
Variables cm cp : ascii.
Hypothesis mul_is : mul k = one_char cm.
Hypothesis pow_is : pow k = one_char cp.
Hypothesis mul_no_space : PyStr.is_space cm = false.
Hypothesis pow_no_space : PyStr.is_space cp = false.

Lemma collect_term_padded (fs ws : list string) :
  Forall2 padded fs ws ->
  collect_term columns (pow k) ws = collect_term columns (pow k) fs.
Proof.
  intros Hpad. unfold collect_term. apply for_each_pointwise.
  clear -Hpad pow_is pow_no_space.
  induction Hpad as [| f w fs ws Hfw _ IH]; constructor; [| exact IH].
  intros acc. rewrite !collect_step_reads, pow_is.
  rewrite (read_factor_padded columns cp f w pow_no_space Hfw). reflexivity.
Qed.

Lemma term_dict_padded (item wide : string) :
  padded item wide ->
  term_dict columns k wide = term_dict columns k item.
Proof.
  intros Hpad. unfold term_dict. rewrite mul_is.
  unfold PyStr.split, one_char. fold (one_char cm). cbn [bind].
  apply collect_term_padded.
  apply (split_scan_padded cm item wide mul_no_space Hpad).
Qed.

Lemma term_dict_joined (fs : list string) :
  fs <> [] ->
  Forall (fun f => has_char cm f = false) fs ->
  term_dict columns k (PyStr.strip (PyStr.join (mul k) fs))
  = collect_term columns (pow k) fs.
Proof.
  intros Hne Hall.
  rewrite <- (term_dict_padded _ _ (strip_decompose (PyStr.join (mul k) fs))).
  unfold term_dict. rewrite mul_is.
  unfold PyStr.split, one_char. fold (one_char cm). cbn [bind].
  rewrite (split_scan_join cm fs Hne Hall). reflexivity.
Qed.

End PaddedFactors.

Lemma has_char_join (c m : ascii) (fs : list string) :
  Ascii.eqb c m = false ->
  Forall (fun f => has_char c f = false) fs ->
  has_char c (PyStr.join (one_char m) fs) = false.
Proof.
  intros Hcm. induction fs as [| f [| g rest] IH]; intros Hall.
  - reflexivity.
  - inversion Hall; subst. assumption.
  - inversion Hall as [| ? ? Hf Hrest]; subst.
    change (PyStr.join (one_char m) (f :: g :: rest))
      with (f ++ String m (PyStr.join (one_char m) (g :: rest)))%string.
    rewrite has_char_append, Hf. simpl. rewrite Hcm. apply IH, Hrest.
Qed.

Lemma padded_list_clean (cs cm : ascii) (fs ws : list string) :
  PyStr.is_space cs = false -> PyStr.is_space cm = false ->
  Forall2 padded fs ws ->
  fs <> [] /\ Forall (fun f => has_char cs f = false /\ has_char cm f = false) fs ->
  ws <> [] /\ Forall (fun f => has_char cs f = false /\ has_char cm f = false) ws.
Proof.
  intros Hcs Hcm Hfw [Hne Hchars]. split.
  - destruct Hfw; [contradiction | discriminate].
  - clear Hne. induction Hfw as [| f w fs ws Hp _ IH]; [constructor |].
    inversion Hchars as [| ? ? [H1 H2] Hmore]; subst.
    constructor; [| apply IH, Hmore].
    rewrite (has_char_padded cs f w Hcs Hp), (has_char_padded cm f w Hcm Hp).
    split; assumption.
Qed.

(** X12: whitespace around the factors of a term is ignored as well:
    descriptions built from the same factors, joined by the multiplication
    operator and the separator, parse alike whatever whitespace is put at
    the ends of each factor (the three operators being single characters
    that are no whitespace, the separator different from the
    multiplication operator). *)
Theorem whitespace_around_factors_ignored
        (terms_factors wide : list (list string))
        (columns : option (list string)) (k : kwds) (cs cm cp : ascii) :
  sep k = one_char cs -> mul k = one_char cm -> pow k = one_char cp ->
  PyStr.is_space cs = false -> PyStr.is_space cm = false ->
  PyStr.is_space cp = false -> cs <> cm ->
  terms_factors <> [] ->
  Forall (fun fs => fs <> [] /\
                    Forall (fun f => has_char cs f = false
                                     /\ has_char cm f = false) fs)
         terms_factors ->
  Forall2 (Forall2 padded) terms_factors wide ->
  parse_label_vector_description
    (PStr (PyStr.join (sep k) (map (PyStr.join (mul k)) wide))) columns k
  = parse_label_vector_description
      (PStr (PyStr.join (sep k) (map (PyStr.join (mul k)) terms_factors)))
      columns k.
Proof.
  intros Hsep Hmul Hpow Hcs Hcm Hcp Hdiff Hne Hall Hpad.
  assert (Hcsm : Ascii.eqb cs cm = false).
  { destruct (Ascii.eqb_spec cs cm); [contradiction | reflexivity]. }
  assert (Hwide : Forall (fun ws => ws <> [] /\
                     Forall (fun f => has_char cs f = false
                                      /\ has_char cm f = false) ws) wide).
  { clear Hne. induction Hpad as [| fs ws fss wss Hfw _ IH]; [constructor |].
    inversion Hall as [| ? ? Hfs Hrest]; subst.
    constructor; [| apply IH, Hrest].
    apply (padded_list_clean cs cm fs ws Hcs Hcm Hfw Hfs). }
  assert (Hitems : forall lists,
             lists <> [] ->
             Forall (fun fs => fs <> [] /\
                       Forall (fun f => has_char cs f = false
                                        /\ has_char cm f = false) fs) lists ->
             description_items
               (PStr (PyStr.join (sep k) (map (PyStr.join (mul k)) lists)))
               (sep k)
             = OK (map PyStr.strip (map (PyStr.join (mul k)) lists))).
  { intros lists Hl Hlists. rewrite Hsep. apply description_items_joined.
    - destruct lists; [contradiction | discriminate].
    - apply Forall_forall. intros item Hitem. apply in_map_iff in Hitem.
      destruct Hitem as (fs & <- & Hfs). rewrite Forall_forall in Hlists.
      destruct (Hlists fs Hfs) as [_ Hchars]. rewrite Hmul.
      apply (has_char_join cs cm fs Hcsm).
      apply Forall_forall. intros f Hf. rewrite Forall_forall in Hchars.
      apply (Hchars f Hf). }
  assert (Hne' : wide <> []).
  { destruct Hpad; [contradiction | discriminate]. }
  rewrite (parse_by_items (PStr _) columns k _ eq_refl (Hitems wide Hne' Hwide)).
  rewrite (parse_by_items (PStr _) columns k _ eq_refl
                          (Hitems terms_factors Hne Hall)).
  f_equal. apply for_each_pointwise.
  clear Hne Hne' Hitems.
  induction Hpad as [| fs ws fss wss Hfw _ IH]; [constructor |].
  inversion Hall as [| ? ? [Hfs Hchars] Hrest]; subst.
  inversion Hwide as [| ? ? [Hws Hwchars] Hwrest]; subst.
  cbn [map]. constructor; [| apply (IH Hrest Hwrest)].
  intros acc. unfold parse_step, parse_item.
  rewrite (term_dict_joined columns k cm cp Hmul Hpow Hcm Hcp ws Hws).
  2:{ apply Forall_forall. intros f Hf. rewrite Forall_forall in Hwchars.
      apply (Hwchars f Hf). }
  rewrite (term_dict_joined columns k cm cp Hmul Hpow Hcm Hcp fs Hfs).
  2:{ apply Forall_forall. intros f Hf. rewrite Forall_forall in Hchars.
      apply (Hchars f Hf). }
  rewrite (collect_term_padded columns k cp Hpow Hcp fs ws Hfw). reflexivity.
Qed.

Lemma whitespace_around_factors_ignored_witness :
  parse_label_vector_description
    (PStr (PyStr.join (sep default_kwds)
             (map (PyStr.join (mul default_kwds))
                  [["Teff^4 "]; [" logg "; " Teff^3"]])))
    None default_kwds
  = parse_label_vector_description
      (PStr (PyStr.join (sep default_kwds)
               (map (PyStr.join (mul default_kwds))
                    [["Teff^4"]; ["logg"; "Teff^3"]])))
      None default_kwds.
Proof.
  apply (whitespace_around_factors_ignored
           [["Teff^4"]; ["logg"; "Teff^3"]]
           [["Teff^4 "]; [" logg "; " Teff^3"]]
           None default_kwds "+" "*" "^"); try reflexivity; try discriminate.
  - repeat constructor; discriminate.
  - constructor; [| constructor; [| constructor]].
    + constructor; [| constructor].
      exists "", " ". repeat split; reflexivity.
    + constructor; [| constructor; [| constructor]].
      * exists " ", " ". repeat split; reflexivity.
      * exists " ", "". repeat split; reflexivity.
Defined.

(** ** More than one power operator *)

(** X13: only the text between the first and the second power operator is
    the power of a factor: what follows a second operator is never read,
    so a factor such as "Teff^2^x" is taken for "Teff^2". *)
Theorem later_powers_ignored (columns : option (list string)) (c : ascii)
        (l p rest : string) :
  has_char c l = false -> has_char c p = false ->
  get_label columns (one_char c) (l ++ one_char c ++ p ++ one_char c ++ rest)
  = get_label columns (one_char c) (l ++ one_char c ++ p)
  /\ get_power (one_char c) (l ++ one_char c ++ p ++ one_char c ++ rest)
     = get_power (one_char c) (l ++ one_char c ++ p)
  /\ get_power (one_char c) (l ++ one_char c ++ p)
     = (f <- PyFloat.of_string (PyStr.strip p) ;; OK (NFloat f)).
Proof.
  intros Hl Hp.
  change (l ++ one_char c ++ p ++ one_char c ++ rest)%string
    with (l ++ String c (p ++ String c rest))%string.
  change (l ++ one_char c ++ p)%string with (l ++ String c p)%string.
  assert (Hlong : PyStr.split (l ++ String c (p ++ String c rest)) (one_char c)
                  = OK (l :: p :: PyStr.split_scan (one_char c) rest EmptyString 0)).
  { unfold PyStr.split, one_char. fold (one_char c).
    rewrite !split_scan_joined.
    rewrite (split_scan_absent c l EmptyString Hl),
      (split_scan_absent c p EmptyString Hp), !rev_onto_back. reflexivity. }
  assert (Hshort : PyStr.split (l ++ String c p) (one_char c) = OK [l; p]).
  { unfold PyStr.split, one_char. fold (one_char c).
    rewrite split_scan_joined.
    rewrite (split_scan_absent c l EmptyString Hl),
      (split_scan_absent c p EmptyString Hp), !rev_onto_back. reflexivity. }
  assert (Hin : forall tail, has_char c (l ++ String c tail) = true).
  { intros tail. rewrite has_char_append. simpl. rewrite Ascii.eqb_refl.
    apply orb_true_r. }
  unfold get_label, get_power.
  rewrite !contains_one_char, !Hin, Hlong, Hshort.
  repeat split; reflexivity.
Qed.

Lemma later_powers_ignored_witness :
  get_label None (one_char "^") ("Teff" ++ one_char "^" ++ "2" ++ one_char "^" ++ "x")
  = get_label None (one_char "^") ("Teff" ++ one_char "^" ++ "2")
  /\ get_power (one_char "^") ("Teff" ++ one_char "^" ++ "2" ++ one_char "^" ++ "x")
     = get_power (one_char "^") ("Teff" ++ one_char "^" ++ "2")
  /\ get_power (one_char "^") ("Teff" ++ one_char "^" ++ "2")
     = (f <- PyFloat.of_string (PyStr.strip "2") ;; OK (NFloat f)).
Proof.
  apply (later_powers_ignored None "^" "Teff" "2" "x"); reflexivity.
Defined.

(** ** Reaching the raise *)

Lemma getitem_within_rows (np : numpy) (n k i : nat) (d : list float) :
  i < n ->
  exists x, getitem np {| shape := [n; k]; data := d |} (PInt (Z.of_nat i))
            = OK x.
Proof.
  intros Hi. unfold getitem. cbn [shape].
  destruct (Z.ltb_spec (Z.of_nat i) 0) as [Hneg | _]; [lia |].
  destruct (Z.leb_spec 0 (Z.of_nat i)) as [_ | Hneg]; [| lia].
  destruct (Z.ltb_spec (Z.of_nat i) (Z.of_nat n)) as [_ | Hge]; [| lia].
  eexists. reflexivity.
Qed.

(** X14: given a batch of [n] rows of as many values as there are
    fiducials and scales, when the label index of the first factor is
    below [n] and numpy computes the power and the product, the evaluator
    gets to line 79 and raises [NameError] on the name [a]. *)
Theorem raise_reached_within_rows (np : numpy) (self : PolynomialVectorizer)
        (values : ndarray) (n k i : nat) (order : pyval)
        (factors terms_rest : list pyval) :
  _parsed_terms self
  = PList (PList (PTuple [PInt (Z.of_nat i); order] :: factors) :: terms_rest) ->
  List.length (fiducials self) = k ->
  List.length (scales self) = k ->
  shape values = [n; k] ->
  i < n ->
  (forall x, exists y, power np x order = OK y) ->
  (forall y, exists z,
      multiply np {| shape := []; data := [PrimFloat.one] |} y = OK z) ->
  get_label_vector np self values = Err (NameError "a").
Proof.
  intros Hterms Hf Hs Hshape Hi Hpower Hmultiply.
  unfold get_label_vector, get_label_vector_in.
  destruct values as [sh d]. cbn [shape] in Hshape. subst sh.
  cbn [ndim shape List.length Nat.eqb Nat.ltb Nat.leb bind nth_error].
  destruct (broadcast_keeps_shape sub n k d (fiducials self) Hf) as (d1 & ->).
  cbn [bind].
  destruct (broadcast_keeps_shape div n k d1 (scales self) Hs) as (d2 & ->).
  cbn [bind]. rewrite Hterms. cbn [py_iter bind for_each].
  unfold column_step at 1. unfold term_column. cbn [py_iter bind for_each].
  unfold factor_step at 1. cbn [unpack2 py_iter bind].
  destruct (getitem_within_rows np n k i d2 Hi) as (x & ->). cbn [bind].
  destruct (Hpower x) as (y & ->). cbn [bind].
  destruct (Hmultiply y) as (z & ->).
  cbn [bind]. unfold load_name. rewrite a_is_unbound. reflexivity.
Qed.

Lemma raise_reached_within_rows_witness :
  get_label_vector whole_numpy two_label_vectorizer
    {| shape := [2; 2]; data := [5777%float; 4.5%float; 4000%float; 1.5%float] |}
  = Err (NameError "a").
Proof.
  apply (raise_reached_within_rows whole_numpy two_label_vectorizer _ 2 2 0
           (PInt 1)
           [] [PList [PTuple [PInt 1; PFloat 2%float]]]);
    try reflexivity.
  - lia.
  - intros x. eexists. reflexivity.
  - intros y. eexists. reflexivity.
Defined.

(** ** Fiducials and scales of the wrong length *)

Lemma broadcast_mismatch (op : float -> float -> float) (n k : nat)
      (d v : list float) :
  k <> 1 -> List.length v <> k -> List.length v <> 1 ->
  broadcast op {| shape := [n; k]; data := d |} v
  = Err (ValueError "operands could not be broadcast together").
Proof.
  intros Hk Hv Hv1. unfold broadcast. cbn [shape].
  destruct (Nat.eqb_spec k (List.length v)) as [Heq | _];
    [symmetry in Heq; contradiction |].
  destruct (Nat.eqb_spec (List.length v) 1) as [Heq | _]; [contradiction |].
  destruct (Nat.eqb_spec k 1) as [Heq | _]; [contradiction |].
  reflexivity.
Qed.

(** X15: the evaluator does not check the lengths itself: for rows of
    [k] values ([k] not 1), fiducials that are neither [k] nor one in
    number, or scales that are not when the fiducials are [k], make the
    subtraction or the division of line 70 fail with numpy's
    [ValueError]. *)
Theorem mismatched_lengths_refused (np : numpy) (self : PolynomialVectorizer)
        (values : ndarray) (n k : nat) :
  shape values = [n; k] -> k <> 1 ->
  (List.length (fiducials self) <> k /\ List.length (fiducials self) <> 1)
  \/ (List.length (fiducials self) = k
      /\ List.length (scales self) <> k /\ List.length (scales self) <> 1) ->
  get_label_vector np self values
  = Err (ValueError "operands could not be broadcast together").
Proof.
  intros Hshape Hk Hlen.
  unfold get_label_vector, get_label_vector_in.
  destruct values as [sh d]. cbn [shape] in Hshape. subst sh.
  cbn [ndim shape List.length Nat.eqb Nat.ltb Nat.leb bind nth_error].
  destruct Hlen as [[Hf Hf1] | (Hf & Hs & Hs1)].
  - rewrite (broadcast_mismatch sub n k d _ Hk Hf Hf1). reflexivity.
  - destruct (broadcast_keeps_shape sub n k d (fiducials self) Hf) as (d1 & ->).
    cbn [bind]. rewrite (broadcast_mismatch div n k d1 _ Hk Hs Hs1).
    reflexivity.
Qed.

Lemma mismatched_lengths_refused_witness :
  get_label_vector whole_numpy two_label_vectorizer
    {| shape := [1; 3]; data := [5777%float; 4.5%float; 0%float] |}
  = Err (ValueError "operands could not be broadcast together").
Proof.
  apply (mismatched_lengths_refused whole_numpy two_label_vectorizer _ 1 3).
  - reflexivity.
  - discriminate.
  - left. split; discriminate.
Defined.

(** ** A label multiplied by itself *)

Lemma collect_repeated (columns : option (list string)) (pow factor : string)
      (lab : label) :
  get_label columns pow factor = OK lab ->
  get_power pow factor = OK (NInt 1) ->
  forall n m,
    for_each (repeat factor n) [(lab, NInt m)] (collect_step columns pow)
    = OK [(lab, NInt (m + Z.of_nat n))].
Proof.
  intros Hl Hp. induction n as [| n IH]; intros m.
  - simpl. rewrite Z.add_0_r. reflexivity.
  - cbn [repeat for_each]. unfold collect_step at 1. rewrite Hl, Hp.
    cbn [bind od_get]. rewrite label_eqb_refl. cbn [py_add bind od_set].
    rewrite label_eqb_refl, IH.
    replace (m + 1 + Z.of_nat n)%Z with (m + Z.of_nat (S n))%Z by lia.
    reflexivity.
Qed.

(** X16: a label with no power operator, multiplied [n] times by itself,
    parses to the one factor of that label with the integer power [n]. *)
Theorem repeated_label_counts (l : string) (n : nat)
        (columns : option (list string)) (k : kwds) (cs cm cp : ascii)
        (lab : label) :
  sep k = one_char cs -> mul k = one_char cm -> pow k = one_char cp ->
  PyStr.is_space cm = false -> PyStr.is_space cp = false -> cs <> cm ->
  has_char cs l = false -> has_char cm l = false -> has_char cp l = false ->
  get_label columns (pow k) l = OK lab ->
  0 < n ->
  parse_label_vector_description
    (PStr (PyStr.join (mul k) (repeat l n))) columns k
  = OK (py_of_label_vector [[(lab, NInt (Z.of_nat n))]]).
Proof.
  intros Hsep Hmul Hpow Hcm Hcp Hdiff Hs Hm Hp Hlab Hn.
  assert (Hcsm : Ascii.eqb cs cm = false).
  { destruct (Ascii.eqb_spec cs cm); [contradiction | reflexivity]. }
  assert (Hall : forall c, has_char c l = false ->
                           Forall (fun f => has_char c f = false) (repeat l n)).
  { intros c Hc. apply Forall_forall. intros f Hf.
    apply repeat_spec in Hf. subst f. exact Hc. }
  assert (Hne : repeat l n <> []).
  { destruct n; [lia | discriminate]. }
  rewrite (parse_by_items (PStr _) columns k
             [PyStr.strip (PyStr.join (mul k) (repeat l n))] eq_refl).
  2:{ rewrite Hsep. unfold one_char at 1. rewrite description_items_string.
      fold (one_char cs). rewrite split_scan_absent, rev_onto_back;
        [reflexivity |].
      rewrite Hmul. apply (has_char_join cs cm _ Hcsm (Hall cs Hs)). }
  cbn [for_each bind]. unfold parse_step, parse_item.
  rewrite (term_dict_joined columns k cm cp Hmul Hpow Hcm Hcp _ Hne (Hall cm Hm)).
  unfold collect_term.
  destruct n as [| n]; [lia |].
  cbn [repeat for_each]. unfold collect_step at 1.
  assert (Hpower : get_power (pow k) l = OK (NInt 1)).
  { unfold get_power. rewrite Hpow, contains_one_char, Hp. reflexivity. }
  rewrite Hlab, Hpower. cbn [bind od_get py_add od_set].
  rewrite (collect_repeated columns (pow k) l lab Hlab Hpower n (0 + 1)%Z).
  cbn [bind]. unfold valid_terms_of, all_finite. cbn [filter snd ne_zero].
  destruct (Z.eqb_spec (0 + 1 + Z.of_nat n) 0) as [Hz | _]; [lia |].
  cbn [negb forallb snd isfinite andb List.length Nat.ltb Nat.leb app
       total_length map list_sum Nat.add Nat.eqb bind].
  replace (0 + 1 + Z.of_nat n)%Z with (Z.of_nat (S n)) by lia.
  reflexivity.
Qed.

Lemma repeated_label_counts_witness :
  parse_label_vector_description
    (PStr (PyStr.join (mul default_kwds) (repeat "logg" 3)))
    (Some ["Teff"; "logg"]) default_kwds
  = OK (py_of_label_vector [[(LIndex 1, NInt (Z.of_nat 3))]]).
Proof.
  apply (repeated_label_counts "logg" 3 (Some ["Teff"; "logg"]) default_kwds
           "+" "*" "^"); try reflexivity; try discriminate.
  lia.
Defined.

(** ** Labels with whitespace at their ends *)

Lemma rstrip_fixed (s : string) : clean_end s = true -> PyStr.rstrip s = s.
Proof.
  induction s as [| c s IH]; [reflexivity |].
  destruct s as [| d r]; intros H.
  - simpl in *. destruct (PyStr.is_space c); [discriminate H | reflexivity].
  - change (clean_end (String c (String d r))) with (clean_end (String d r)) in H.
    change (PyStr.rstrip (String c (String d r)))
      with (match PyStr.rstrip (String d r) with
            | EmptyString =>
                if PyStr.is_space c then EmptyString else String c EmptyString
            | String x y => String c (String x y)
            end).
    rewrite (IH H). reflexivity.
Qed.

Lemma strip_trimmed (s : string) : trimmed s = true -> PyStr.strip s = s.
Proof.
  destruct s as [| c s]; [reflexivity |].
  unfold trimmed. intros H. apply andb_true_iff in H. destruct H as [Hc He].
  unfold PyStr.strip. rewrite lstrip_fixed.
  - apply rstrip_fixed, He.
  - simpl. destruct (PyStr.is_space c); [discriminate Hc | reflexivity].
Qed.

Lemma index_of_complete (x : string) (columns : list string) (i : nat) :
  nth_error columns i = Some x ->
  (forall j, j < i -> nth_error columns j <> Some x) ->
  index_of x columns = Some i.
Proof.
  revert i. induction columns as [| c rest IH]; intros i Hnth Hfirst.
  - destruct i; discriminate Hnth.
  - simpl. destruct i as [| i].
    + simpl in Hnth. injection Hnth as ->. rewrite String.eqb_refl.
      reflexivity.
    + destruct (String.eqb_spec c x) as [-> | _].
      * exfalso. apply (Hfirst 0); [lia | reflexivity].
      * rewrite (IH i Hnth); [reflexivity |].
        intros j Hj. apply (Hfirst (S j)). lia.
Qed.

(** The first field of a factor whose label holds no power operator. *)
Lemma first_field (c : ascii) (token suffix : string) :
  has_char c token = false ->
  match suffix with
  | EmptyString => True
  | String a _ => a = c
  end ->
  exists fields,
    PyStr.split (token ++ suffix)%string (one_char c) = OK (token :: fields).
Proof.
  intros Htoken Hsuffix. unfold PyStr.split, one_char. fold (one_char c).
  destruct suffix as [| a rest].
  - rewrite append_empty_r, (split_scan_absent c token EmptyString Htoken),
      rev_onto_back.
    exists []. reflexivity.
  - subst a.
    rewrite split_scan_joined, (split_scan_absent c token EmptyString Htoken),
      rev_onto_back.
    eexists. reflexivity.
Qed.

(** C8: with columns, the label of a factor is the position of its
    trimmed token in the columns, the first that matches it exactly, and a
    token that is in no column raises; the description then fails as a
    whole.  The token is what stands before the power operator, without
    the whitespace at its ends: a name between whitespace resolves to the
    first column equal to the name.  "logg*Teff^3" and "logg * Teff^3"
    over Teff, logg, feh give [[(1, 1), (0, 3)]], and "bogus^2" raises the
    error of the lookup. *)
Theorem labels_resolved_by_position :
  (forall columns pow d parts token,
      PyStr.split d pow = OK parts ->
      nth_error parts 0 = Some token ->
      (forall i, index_of (PyStr.strip token) columns = Some i ->
                 get_label (Some columns) pow d = OK (LIndex i) /\
                 nth_error columns i = Some (PyStr.strip token) /\
                 forall j, j < i -> nth_error columns j <> Some (PyStr.strip token))
      /\ (~ In (PyStr.strip token) columns ->
          get_label (Some columns) pow d = Err (ValueError "is not in list")))
  /\ (forall description columns k items item descriptor factor e,
         _is_structured_label_vector description = OK false ->
         description_items description (sep k) = OK items ->
         In item items ->
         PyStr.split item (mul k) = OK descriptor ->
         In factor descriptor ->
         get_label (Some columns) (pow k) factor = Err e ->
         exists e',
           parse_label_vector_description description (Some columns) k = Err e')
  /\ parse_label_vector_description (PStr "logg*Teff^3")
       (Some ["Teff"; "logg"; "feh"]) default_kwds
     = OK (PList [PList [PTuple [PInt 1; PInt 1]; PTuple [PInt 0; PFloat 3%float]]])
  /\ parse_label_vector_description (PStr "bogus^2")
       (Some ["Teff"; "logg"; "feh"]) default_kwds
     = Err (ValueError "is not in list")
  /\ (forall columns c lead name trail suffix,
         PyStr.is_space c = false ->
         all_space lead = true -> all_space trail = true ->
         trimmed name = true -> has_char c name = false ->
         match suffix with
         | EmptyString => True
         | String a _ => a = c
         end ->
         (forall i,
             nth_error columns i = Some name ->
             (forall j, j < i -> nth_error columns j <> Some name) ->
             get_label (Some columns) (one_char c)
                       ((lead ++ name ++ trail) ++ suffix)%string
             = OK (LIndex i))
         /\ (~ In name columns ->
             get_label (Some columns) (one_char c)
                       ((lead ++ name ++ trail) ++ suffix)%string
             = Err (ValueError "is not in list")))
  /\ parse_label_vector_description (PStr "logg * Teff^3")
       (Some ["Teff"; "logg"; "feh"]) default_kwds
     = OK (PList [PList [PTuple [PInt 1; PInt 1]; PTuple [PInt 0; PFloat 3%float]]])
  /\ parse_label_vector_description (PStr " feh ^ 2 + logg ")
       (Some ["Teff"; "logg"; "feh"]) default_kwds
     = OK (PList [PList [PTuple [PInt 2; PFloat 2%float]];
                  PList [PTuple [PInt 1; PInt 1]]])
  /\ parse_label_vector_description (PStr " log g ^2 * Teff")
       (Some ["log g"; "Teff"]) default_kwds
     = OK (PList [PList [PTuple [PInt 0; PFloat 2%float]; PTuple [PInt 1; PInt 1]]])
  /\ parse_label_vector_description (PStr "logg*Teff")
       (Some ["logg"; "Teff"; "logg"]) default_kwds
     = OK (PList [PList [PTuple [PInt 0; PInt 1]; PTuple [PInt 1; PInt 1]]])
  /\ parse_label_vector_description (PStr "log g")
       (Some ["Teff"; "logg"; "feh"]) default_kwds
     = Err (ValueError "is not in list")
  /\ parse_label_vector_description (PStr "Teff * teff")
       (Some ["Teff"; "logg"; "feh"]) default_kwds
     = Err (ValueError "is not in list").
Proof.
  split; [| split; [| split; [| split; [| split]]]];
    try (repeat split; vm_compute; reflexivity).
  - intros columns pow d parts token Hsplit Htoken. unfold get_label.
    rewrite Hsplit. unfold bind. rewrite Htoken. split.
    + intros i Hi. rewrite Hi. split; [reflexivity |].
      apply index_of_some, Hi.
    + intros Hout. apply index_of_none in Hout. rewrite Hout. reflexivity.
  - intros description columns k items item descriptor factor e.
    apply unresolved_label_fails.
  - intros columns c lead name trail suffix Hc Hlead Htrail Hname Hno Hsuffix.
    assert (Htoken : has_char c (lead ++ name ++ trail)%string = false).
    { rewrite !has_char_append, Hno, (all_space_has_no c lead Hc Hlead),
        (all_space_has_no c trail Hc Htrail). reflexivity. }
    destruct (first_field c _ suffix Htoken Hsuffix) as (fields & Hfields).
    assert (Hstrip : PyStr.strip (lead ++ name ++ trail)%string = name).
    { rewrite (strip_padded name (lead ++ name ++ trail)%string).
      - apply strip_trimmed, Hname.
      - exists lead, trail. repeat split; assumption. }
    unfold get_label. rewrite Hfields. cbn [bind nth_error]. rewrite Hstrip.
    split.
    + intros i Hnth Hfirst.
      rewrite (index_of_complete name columns i Hnth Hfirst). reflexivity.
    + intros Hout. apply index_of_none in Hout. rewrite Hout. reflexivity.
Qed.

Lemma labels_resolved_by_position_witness :
  get_label (Some ["Teff"; "logg"; "feh"]) "^" " logg ^2" = OK (LIndex 1)
  /\ get_label (Some ["Teff"; "logg"; "feh"]) "^" "  bogus "
     = Err (ValueError "is not in list").
Proof.
  split.
  - apply (proj1 (proj1 (proj2 (proj2 (proj2 (proj2 labels_resolved_by_position))))
                    ["Teff"; "logg"; "feh"] "^"%char " " "logg" " " "^2"
                    eq_refl eq_refl eq_refl eq_refl eq_refl eq_refl) 1).
    + reflexivity.
    + intros [| j] Hj; [discriminate | lia].
  - apply (proj2 (proj1 (proj2 (proj2 (proj2 (proj2 labels_resolved_by_position))))
                    ["Teff"; "logg"; "feh"] "^"%char "  " "bogus" " " ""
                    eq_refl eq_refl eq_refl eq_refl eq_refl I)).
    intros [H | [H | [H | []]]]; discriminate H.
Defined.
